(** * SEC filings lookup: a shallow embedding of BXT_lookup_direct_to_filing.py

    The development follows the source file top-down:
    - [PyStr]    : the Python string methods the program calls
                   (zfill, replace, strip, lower, endswith, in);
    - [Net]      : the outside world (clock, upstream server, parsers) and
                   the state-and-exception monad the program runs in;
    - [Fetcher]  : [sec_get];
    - [Resolver] : [get_native_filing_url];
    - [Query]    : [get_filings];
    - [Governor] : the lock-protected critical section of [sec_get] under
                   an interleaving of several threads;
    - [App]      : [FilingSearchApp.search_filings].

    Strings are [String.string], read as sequences of code points below
    256, on which Python's [lower] and [strip] act as defined below.
    Wall-clock time is a
    rational number of seconds. Calls of [logging] change neither control
    flow nor results and are left out; the widgets of the presentation
    layer (tkinter) are outside the model. *)

From Stdlib Require Import List String Ascii Bool Arith Lia ZArith QArith Lqa Sorted.
Import ListNotations.

Close Scope Q_scope.
Open Scope nat_scope.
Open Scope string_scope.

(** ** Python string methods *)
Module PyStr.

(** [c * n] for a one-character string. *)
Fixpoint repeat_char (c : ascii) (n : nat) : string :=
  match n with
  | O => ""
  | S k => String c (repeat_char c k)
  end.

(** [s.zfill(width)]: a string at least [width] long is returned as it is;
    otherwise zeros are inserted on the left, after a leading sign. *)
Definition zfill (width : nat) (s : string) : string :=
  if (width <=? String.length s)%nat then s
  else
    let fill := width - String.length s in
    match s with
    | String "+" rest => String "+" (repeat_char "0" fill ++ rest)
    | String "-" rest => String "-" (repeat_char "0" fill ++ rest)
    | _ => repeat_char "0" fill ++ s
    end.

(** [s.startswith(prefix)] *)
Fixpoint startswith (s prefix : string) {struct prefix} : bool :=
  match prefix with
  | "" => true
  | String a prefix' =>
      match s with
      | "" => false
      | String b s' => Ascii.eqb b a && startswith s' prefix'
      end
  end.

(** [s.replace(old, new)], scanning left to right without overlap.
    [skip] counts the characters of a match still to be dropped. *)
Fixpoint replace_from (old new s : string) (skip : nat) : string :=
  match s with
  | "" => ""
  | String c rest =>
      match skip with
      | S k => replace_from old new rest k
      | O =>
          if startswith s old
          then new ++ replace_from old new rest (String.length old - 1)
          else String c (replace_from old new rest 0)
      end
  end.

Fixpoint intersperse (new s : string) : string :=
  match s with
  | "" => ""
  | String c rest => String c (new ++ intersperse new rest)
  end.

Definition replace (old new s : string) : string :=
  match old with
  | "" => new ++ intersperse new s
  | _ => replace_from old new s 0
  end.

(** [c.isspace()] for a code point below 256: TAB to CR, FS to US, the
    space, NEL (133) and the no-break space (160). *)
Definition is_space (c : ascii) : bool :=
  let n := nat_of_ascii c in
  ((9 <=? n) && (n <=? 13))%nat || ((28 <=? n) && (n <=? 32))%nat
  || (n =? 133)%nat || (n =? 160)%nat.

Fixpoint lstrip (s : string) : string :=
  match s with
  | "" => ""
  | String c rest => if is_space c then lstrip rest else s
  end.

Fixpoint rstrip (s : string) : string :=
  match s with
  | "" => ""
  | String c rest =>
      match rstrip rest with
      | "" => if is_space c then "" else String c ""
      | r => String c r
      end
  end.

(** [s.strip()] *)
Definition strip (s : string) : string := rstrip (lstrip s).

(** [c.lower()] for a code point below 256: the capitals A to Z, and the
    Latin-1 capitals 192 to 222 but for the multiplication sign (215), go
    32 places up. *)
Definition lower_char (c : ascii) : ascii :=
  let n := nat_of_ascii c in
  if (((65 <=? n) && (n <=? 90))
      || ((192 <=? n) && (n <=? 214))
      || ((216 <=? n) && (n <=? 222)))%nat
  then ascii_of_nat (n + 32) else c.

(** [s.lower()] *)
Fixpoint lower (s : string) : string :=
  match s with
  | "" => ""
  | String c rest => String (lower_char c) (lower rest)
  end.

(** [s.endswith(suffix)]: some tail of [s] is [suffix]. *)
Fixpoint endswith (s suffix : string) : bool :=
  (s =? suffix) ||
  match s with
  | "" => false
  | String _ rest => endswith rest suffix
  end.

(** [sub in s]: some tail of [s] starts with [sub]. *)
Fixpoint contains (sub s : string) : bool :=
  startswith s sub ||
  match s with
  | "" => false
  | String _ rest => contains sub rest
  end.

Definition is_digit (c : ascii) : bool :=
  let n := nat_of_ascii c in ((48 <=? n) && (n <=? 57))%nat.

Fixpoint all_chars (p : ascii -> bool) (s : string) : bool :=
  match s with
  | "" => true
  | String c rest => p c && all_chars p rest
  end.

(** Characters of [s] other than [c], in order. *)
Fixpoint remove_char (c : ascii) (s : string) : string :=
  match s with
  | "" => ""
  | String d rest =>
      if Ascii.eqb d c then remove_char c rest else String d (remove_char c rest)
  end.

End PyStr.

(** ** The outside world and the monad of effects *)
Module Net.

(** Subclasses of [requests.RequestException]. *)
Inductive request_error : Type :=
| ConnectionError (msg : string)
| Timeout (msg : string)
| HTTPError (status : Z).

(** Exceptions the program can meet. Only [RequestException] is ever
    caught (lines 60 and 98). *)
Inductive exn : Type :=
| RequestException (e : request_error)
| IndexError
| KeyError
| TypeError
| AttributeError
| UnboundLocalError.

Inductive result (A : Type) : Type :=
| Ok (a : A)
| Raise (e : exn).
Arguments Ok {A} a.
Arguments Raise {A} e.

(** The part of [requests.Response] the program reads. *)
Record response : Type := mkResponse {
  status_code : Z;
  text : string
}.

(** What one call of [requests.get] does. *)
Inductive outcome : Type :=
| Returns (r : response)
| Fails (e : request_error).

#[local] Set Warnings "-register-all".

(** Values decoded by [response.json()]. The payload of a number is never
    inspected by the program. An object is the decoded dict: its members
    in order, their keys distinct. *)
Inductive json : Type :=
| JNull
| JBool (b : bool)
| JNum (z : Z)
| JStr (s : string)
| JArr (items : list json)
| JObj (members : list (string * json)).

(** Observable effects, in the order they happen. *)
Inductive event : Type :=
| RateSleep (d : Q)                       (* line 38: time.sleep(0.2 - elapsed) *)
| Get (url : string) (timeout : nat)      (* line 40: requests.get *)
| BackoffSleep (secs : nat).              (* line 43: time.sleep((attempt+1)*10) *)

(** The environment: the wall clock as the sequence of values returned by
    successive calls of [time.time()], the upstream server as the outcome
    of the [n]-th call of [requests.get], and the two library parsers. *)
Record env : Type := mkEnv {
  clock : nat -> Q;
  upstream : nat -> string -> outcome;
  find_all_a_href : string -> list string;  (* BeautifulSoup: href of each <a href> in document order *)
  json_loads : string -> option json        (* response.json(); None is ValueError *)
}.

(** Mutable state: the module-level [_last_request_time], the number of
    clock readings and requests made so far, and the trace of effects. *)
Record world : Type := mkWorld {
  ticks : nat;
  last_request_time : Q;
  requests : nat;
  trace : list event
}.

Definition initial_world : world :=
  {| ticks := 0; last_request_time := 0%Q; requests := 0; trace := [] |}.

Definition M (A : Type) : Type := world -> result A * world.

Definition ret {A} (a : A) : M A := fun w => (Ok a, w).

Definition raise {A} (e : exn) : M A := fun w => (Raise e, w).

Definition bind {A B} (m : M A) (k : A -> M B) : M B :=
  fun w =>
    match m w with
    | (Ok a, w') => k a w'
    | (Raise e, w') => (Raise e, w')
    end.

Definition lift {A} (r : result A) : M A := fun w => (r, w).

Definition emit (e : event) : M unit :=
  fun w => (Ok tt, {| ticks := ticks w;
                      last_request_time := last_request_time w;
                      requests := requests w;
                      trace := (trace w ++ [e])%list |}).

Definition get_last_request_time : M Q :=
  fun w => (Ok (last_request_time w), w).

Definition set_last_request_time (t : Q) : M unit :=
  fun w => (Ok tt, {| ticks := ticks w;
                      last_request_time := t;
                      requests := requests w;
                      trace := trace w |}).

Definition Qltb (x y : Q) : bool := negb (Qle_bool y x).

(** Views of a trace: the requests and backoff waits without the
    governor's short sleeps, the backoff waits alone, the requests alone. *)
Definition is_rate_sleep (e : event) : bool :=
  match e with
  | RateSleep _ => true
  | _ => false
  end.

Definition plan (tr : list event) : list event :=
  filter (fun e => negb (is_rate_sleep e)) tr.

Fixpoint backoffs (tr : list event) : list nat :=
  match tr with
  | [] => []
  | BackoffSleep secs :: rest => secs :: backoffs rest
  | _ :: rest => backoffs rest
  end.

Fixpoint gets (tr : list event) : list string :=
  match tr with
  | [] => []
  | Get url _ :: rest => url :: gets rest
  | _ :: rest => gets rest
  end.

End Net.

Declare Scope py_scope.
Delimit Scope py_scope with py.
Notation "x <- m ;; k" := (Net.bind m (fun x => k))
  (at level 61, m at next level, right associativity) : py_scope.
Notation "m ;; k" := (Net.bind m (fun _ => k))
  (at level 61, right associativity) : py_scope.
Open Scope py_scope.

(** ** Resilient fetcher: [sec_get] *)
Module Fetcher.
Import Net.

Section WithEnv.
Variable E : env.

(** [time.time()] *)
Definition time_time : M Q :=
  fun w => (Ok (clock E (ticks w)),
            {| ticks := S (ticks w);
               last_request_time := last_request_time w;
               requests := requests w;
               trace := trace w |}).

(** [requests.get(url, headers=SEC_HEADERS, timeout=...)] *)
Definition requests_get (url : string) (timeout : nat) : M response :=
  fun w =>
    let w' := {| ticks := ticks w;
                 last_request_time := last_request_time w;
                 requests := S (requests w);
                 trace := (trace w ++ [Get url timeout])%list |} in
    match upstream E (requests w) url with
    | Returns r => (Ok r, w')
    | Fails e => (Raise (RequestException e), w')
    end.

Definition max_retries : nat := 3.
Definition backoff_factor : nat := 10.
Definition min_interval : Q := (2 # 10)%Q.

(** Lines 33-39, the body of [with _rate_limit_lock]. With one thread the
    lock is free on entry and released on exit. *)
Definition rate_limit : M unit :=
  now <- time_time ;;
  last <- get_last_request_time ;;
  let elapsed := (now - last)%Q in
  (if Qltb elapsed min_interval
   then emit (RateSleep (min_interval - elapsed)%Q)
   else ret tt) ;;
  t <- time_time ;;
  set_last_request_time t.

(** Lines 32-47: the loop over [range(max_retries)]; [response] is the
    local variable, unbound until the first request returns. *)
Fixpoint sec_get_loop (url : string) (timeout : nat)
         (attempts : list nat) (response : option response) : M Net.response :=
  match attempts with
  | [] =>
      match response with
      | Some r => ret r
      | None => raise UnboundLocalError
      end
  | attempt :: rest =>
      rate_limit ;;
      r <- requests_get url timeout ;;
      if (status_code r =? 429)%Z
      then emit (BackoffSleep ((attempt + 1) * backoff_factor)) ;;
           sec_get_loop url timeout rest (Some r)
      else ret r
  end.

Definition sec_get (url : string) (timeout : nat) : M response :=
  sec_get_loop url timeout (seq 0 max_retries) None.

(** What a call of [sec_get] does, by the outcomes of the (at most three)
    requests it makes: the result, and the requests and backoff waits it
    adds to the trace. *)
Definition sec_get_behaviour (url : string) (timeout : nat) (first : nat)
           (res : result response) (p : list event) : Prop :=
  let G := Get url timeout in
  match upstream E first url with
  | Fails e => res = Raise (RequestException e) /\ p = [G]
  | Returns r1 =>
      if (status_code r1 =? 429)%Z then
        match upstream E (S first) url with
        | Fails e =>
            res = Raise (RequestException e) /\ p = [G; BackoffSleep 10; G]
        | Returns r2 =>
            if (status_code r2 =? 429)%Z then
              match upstream E (S (S first)) url with
              | Fails e =>
                  res = Raise (RequestException e)
                  /\ p = [G; BackoffSleep 10; G; BackoffSleep 20; G]
              | Returns r3 =>
                  res = Ok r3
                  /\ p = ([G; BackoffSleep 10; G; BackoffSleep 20; G]
                          ++ (if (status_code r3 =? 429)%Z
                              then [BackoffSleep 30] else []))%list
              end
            else res = Ok r2 /\ p = [G; BackoffSleep 10; G]
        end
      else res = Ok r1 /\ p = [G]
  end.

End WithEnv.
End Fetcher.

(** ** Document resolver: [get_native_filing_url] *)
Module Resolver.
Import Net PyStr Fetcher.

(** [response.raise_for_status()]: HTTPError on a 4xx or 5xx status. *)
Definition raise_for_status (r : response) : M unit :=
  if ((400 <=? status_code r) && (status_code r <? 600))%Z
  then raise (RequestException (HTTPError (status_code r)))
  else ret tt.

(** Lines 67-76: the loop that fills [candidate_files]. *)
Fixpoint collect_candidates (links candidate_files : list string) : list string :=
  match links with
  | [] => candidate_files
  | link :: rest =>
      let href := strip link in
      let lower_href := lower href in
      if (endswith lower_href ".htm" || endswith lower_href ".html")
         && negb (contains "/" href)
      then
        if endswith lower_href ".txt"
        then collect_candidates rest candidate_files
        else collect_candidates rest (candidate_files ++ [href])%list
      else collect_candidates rest candidate_files
  end.

(** Lines 79-85. *)
Definition choose_url (base_url index_url : string) (candidate_files : list string) : string :=
  let non_index_candidates :=
    filter (fun f => negb (lower f =? "index.html")) candidate_files in
  match non_index_candidates with
  | _ :: _ => base_url ++ last non_index_candidates ""
  | [] =>
      match candidate_files with
      | _ :: _ => base_url ++ last candidate_files ""
      | [] => index_url
      end
  end.

(** The three conditions on a trimmed href, as one test, and the test for
    the index page name. *)
Definition is_candidate (href : string) : bool :=
  (endswith (lower href) ".htm" || endswith (lower href) ".html")
  && negb (contains "/" href)
  && negb (endswith (lower href) ".txt").

Definition is_index (f : string) : bool := lower f =? "index.html".

Definition base_url_of (cik accession_stripped : string) : string :=
  "https://www.sec.gov/Archives/edgar/data/" ++ cik ++ "/" ++ accession_stripped ++ "/".

Definition index_url_of (cik accession_stripped : string) : string :=
  base_url_of cik accession_stripped ++ "index.html".

Section WithEnv.
Variable E : env.

(** Lines 49-85. [accession_original] is a parameter the body never reads. *)
Definition get_native_filing_url
           (cik accession_stripped accession_original : string) : M string :=
  let base_url := base_url_of cik accession_stripped in
  let index_url := base_url ++ "index.html" in
  fun w =>
    match (response <- sec_get E index_url 10 ;;
           raise_for_status response ;;
           ret response) w with
    | (Raise (RequestException e), w') => (Ok index_url, w')
    | (Raise e, w') => (Raise e, w')
    | (Ok response, w') =>
        let links := find_all_a_href E (text response) in
        let candidate_files := collect_candidates links [] in
        (Ok (choose_url base_url index_url candidate_files), w')
    end.

End WithEnv.
End Resolver.

(** ** Filings query: [get_filings] *)
Module Query.
Import Net PyStr Fetcher Resolver.

Fixpoint assoc (key : string) (members : list (string * json)) : option json :=
  match members with
  | [] => None
  | (k, v) :: rest => if k =? key then Some v else assoc key rest
  end.

(** [d.get(key, default)] *)
Definition py_get (d : json) (key : string) (default : json) : result json :=
  match d with
  | JObj members =>
      match assoc key members with
      | Some v => Ok v
      | None => Ok default
      end
  | _ => Raise AttributeError
  end.

Fixpoint chars (s : string) : list json :=
  match s with
  | "" => []
  | String c rest => JStr (String c "") :: chars rest
  end.

(** The items [enumerate(v)] runs over. *)
Definition py_iter (v : json) : result (list json) :=
  match v with
  | JArr items => Ok items
  | JStr s => Ok (chars s)
  | JObj members => Ok (map (fun kv => JStr (fst kv)) members)
  | _ => Raise TypeError
  end.

(** [v[i]] for a non-negative integer [i]. *)
Definition py_index (v : json) (i : nat) : result json :=
  match v with
  | JArr items =>
      match nth_error items i with
      | Some x => Ok x
      | None => Raise IndexError
      end
  | JStr s =>
      match nth_error (chars s) i with
      | Some x => Ok x
      | None => Raise IndexError
      end
  | JObj _ => Raise KeyError
  | _ => Raise TypeError
  end.

(** [v == s] for a string [s]. *)
Definition py_eq_str (v : json) (s : string) : bool :=
  match v with
  | JStr t => t =? s
  | _ => false
  end.

(** Lines 116-117 on a string: the stripped and the original accession id,
    in the order they are passed to [get_native_filing_url]. *)
Definition accession_ids (accession_number : string) : string * string :=
  let accession_original := accession_number in
  let accession_stripped := replace "-" "" accession_original in
  (accession_stripped, accession_original).

(** The same on a decoded value: only a string has [replace]. *)
Definition py_accession_ids (v : json) : result (string * string) :=
  match v with
  | JStr s => Ok (accession_ids s)
  | _ => Raise AttributeError
  end.

Definition manifest_url (cik : string) : string :=
  "https://data.sec.gov/submissions/CIK" ++ cik ++ ".json".

Section WithEnv.
Variable E : env.

(** Lines 114-120: the loop over [enumerate(forms)]. *)
Fixpoint filings_loop (cik filing_type : string) (accession_numbers filing_dates : json)
         (i : nat) (forms : list json) (results : list (json * string))
  : M (list (json * string)) :=
  match forms with
  | [] => ret results
  | form :: rest =>
      if py_eq_str form filing_type
      then
        accession_number <- lift (py_index accession_numbers i) ;;
        ids <- lift (py_accession_ids accession_number) ;;
        filing_url <- get_native_filing_url E cik (fst ids) (snd ids) ;;
        filing_date <- lift (py_index filing_dates i) ;;
        filings_loop cik filing_type accession_numbers filing_dates (S i) rest
                     (results ++ [(filing_date, filing_url)])%list
      else
        filings_loop cik filing_type accession_numbers filing_dates (S i) rest results
  end.

(** Lines 87-123. *)
Definition get_filings (cik filing_type : string) : M (list (json * string)) :=
  let cik := zfill 10 cik in
  let base_url := manifest_url cik in
  fun w =>
    match (response <- sec_get E base_url 10 ;;
           raise_for_status response ;;
           ret response) w with
    | (Raise (RequestException e), w') => (Ok [], w')
    | (Raise e, w') => (Raise e, w')
    | (Ok response, w') =>
        match json_loads E (text response) with
        | None => (Ok [], w')
        | Some data =>
            (all_filings <- lift (py_get data "filings" (JObj [])) ;;
             filings <- lift (py_get all_filings "recent" (JObj [])) ;;
             forms <- lift (py_get filings "form" (JArr [])) ;;
             accession_numbers <- lift (py_get filings "accessionNumber" (JArr [])) ;;
             filing_dates <- lift (py_get filings "filingDate" (JArr [])) ;;
             items <- lift (py_iter forms) ;;
             filings_loop cik filing_type accession_numbers filing_dates 0 items []) w'
        end
    end.

(** The query as section 4.4 of the specification words it: for each
    index whose form is the requested type, resolve the stripped accession
    id and pair the filing date of that index with the URL, in manifest
    order. [i] is the index of the head of [forms]. *)
Fixpoint query_as_specified (cik filing_type : string)
         (accessionNumber filingDate : list string)
         (i : nat) (forms : list string) : M (list (json * string)) :=
  match forms with
  | [] => ret []
  | form :: rest =>
      if form =? filing_type
      then
        let accession := nth i accessionNumber "" in
        url <- get_native_filing_url E cik (replace "-" "" accession) accession ;;
        records <- query_as_specified cik filing_type accessionNumber filingDate
                     (S i) rest ;;
        ret ((JStr (nth i filingDate ""), url) :: records)
      else query_as_specified cik filing_type accessionNumber filingDate (S i) rest
  end.

End WithEnv.

(** Indices of [forms] (counted from [i]) whose form is the requested type. *)
Fixpoint matching_indices (filing_type : string) (i : nat) (forms : list string)
  : list nat :=
  match forms with
  | [] => []
  | form :: rest =>
      if form =? filing_type
      then i :: matching_indices filing_type (S i) rest
      else matching_indices filing_type (S i) rest
  end.

(** The manifest document with the three parallel arrays of strings. *)
Definition manifest (form accessionNumber filingDate : list string) : json :=
  JObj [("filings",
         JObj [("recent",
                JObj [("form", JArr (map JStr form));
                      ("accessionNumber", JArr (map JStr accessionNumber));
                      ("filingDate", JArr (map JStr filingDate))])])].

End Query.

(** ** Rate governor: lines 33-39 of [sec_get] run by several threads

    Each thread repeats the rate-limited part of [sec_get]; a schedule
    interleaves the threads' atomic steps with the passing of time. The
    clock never runs backwards, and [time.sleep(d)] returns no earlier than
    [d] seconds after it was called. *)
Module Governor.

Definition min_interval : Q := Fetcher.min_interval.

(** Where a thread stands in [sec_get]. *)
Inductive pc : Type :=
| AtLock                 (* line 33: about to enter [with _rate_limit_lock] *)
| AtNow                  (* line 34: now = time.time() *)
| AtTest (now : Q)       (* lines 35-37: elapsed = now - _last_request_time; if elapsed < 0.2 *)
| AtSleep (d : Q)        (* line 38: about to call time.sleep(d) *)
| Asleep (wake : Q)      (* line 38: inside time.sleep, which returns at [wake] or later *)
| AtStamp                (* line 39: _last_request_time = time.time() *)
| AtRelease              (* end of the [with] block *)
| AtRequest.             (* line 40: requests.get, outside the lock *)

Record state : Type := mkState {
  clock : Q;                      (* wall-clock time *)
  lock : option nat;              (* holder of _rate_limit_lock *)
  last_request_time : Q;          (* _last_request_time *)
  threads : list pc;
  stamps : list Q                 (* values written at line 39, newest first *)
}.

Inductive action : Type :=
| Tick (d : Q)                    (* [d] seconds pass *)
| Run (t : nat).                  (* thread [t] takes its next step *)

Fixpoint update (t : nat) (p : pc) (l : list pc) : list pc :=
  match l, t with
  | [], _ => []
  | _ :: rest, O => p :: rest
  | q :: rest, S k => q :: update k p rest
  end.

Definition move (t : nat) (p : pc) (s : state) : state :=
  {| clock := clock s; lock := lock s;
     last_request_time := last_request_time s;
     threads := update t p (threads s); stamps := stamps s |}.

(** The next step of thread [t] standing at [p]; [None] when it cannot run
    (the lock is taken, or the sleep is not over). *)
Definition thread_step (t : nat) (p : pc) (s : state) : option state :=
  match p with
  | AtLock =>
      match lock s with
      | None =>
          Some {| clock := clock s; lock := Some t;
                  last_request_time := last_request_time s;
                  threads := update t AtNow (threads s); stamps := stamps s |}
      | Some _ => None
      end
  | AtNow => Some (move t (AtTest (clock s)) s)
  | AtTest now =>
      let elapsed := (now - last_request_time s)%Q in
      if Net.Qltb elapsed min_interval
      then Some (move t (AtSleep (min_interval - elapsed)%Q) s)
      else Some (move t AtStamp s)
  | AtSleep d => Some (move t (Asleep (clock s + d)%Q) s)
  | Asleep wake =>
      if Qle_bool wake (clock s) then Some (move t AtStamp s) else None
  | AtStamp =>
      Some {| clock := clock s; lock := lock s;
              last_request_time := clock s;
              threads := update t AtRelease (threads s);
              stamps := clock s :: stamps s |}
  | AtRelease =>
      Some {| clock := clock s; lock := None;
              last_request_time := last_request_time s;
              threads := update t AtRequest (threads s); stamps := stamps s |}
  | AtRequest => Some (move t AtLock s)
  end.

Definition step (a : action) (s : state) : option state :=
  match a with
  | Tick d =>
      if Qle_bool 0 d
      then Some {| clock := (clock s + d)%Q; lock := lock s;
                   last_request_time := last_request_time s;
                   threads := threads s; stamps := stamps s |}
      else None
  | Run t =>
      match nth_error (threads s) t with
      | Some p => thread_step t p s
      | None => None
      end
  end.

Fixpoint run (schedule : list action) (s : state) : option state :=
  match schedule with
  | [] => Some s
  | a :: rest =>
      match step a s with
      | Some s' => run rest s'
      | None => None
      end
  end.

(** [n] threads about to call [sec_get], the clock showing [t0]. *)
Definition start (n : nat) (t0 : Q) : state :=
  {| clock := t0; lock := None; last_request_time := 0%Q;
     threads := repeat AtLock n; stamps := [] |}.

(** A thread is inside the [with] block. *)
Definition in_critical (p : pc) : bool :=
  match p with
  | AtLock | AtRequest => false
  | _ => true
  end.

(** Each timestamp is at least [min_interval] after every older one. *)
Fixpoint spaced (l : list Q) : Prop :=
  match l with
  | [] => True
  | a :: older => Forall (fun b => (b + min_interval <= a)%Q) older /\ spaced older
  end.

(** What a thread standing at [p] knows about the clock [c] and the
    recorded time [last]. *)
Definition pc_ok (c last : Q) (p : pc) : Prop :=
  match p with
  | AtTest now => (now <= c)%Q
  | AtSleep d => (last + min_interval <= c + d)%Q
  | Asleep wake => (last + min_interval <= wake)%Q
  | AtStamp => (last + min_interval <= c)%Q
  | _ => True
  end.

Record invariant (s : state) : Prop := mkInvariant {
  inv_lock : forall t p,
      nth_error (threads s) t = Some p -> in_critical p = true -> lock s = Some t;
  inv_pc : forall t p,
      nth_error (threads s) t = Some p ->
      pc_ok (clock s) (last_request_time s) p;
  inv_spaced : spaced (stamps s);
  inv_recent : Forall (fun b => (b <= last_request_time s)%Q) (stamps s)
}.

End Governor.

(** ** The search driver: [FilingSearchApp.search_filings]

    The widgets are outside the model; what the method reads from them is
    the [form], and what it hands back to the event loop with [root.after]
    is the [callback]. *)
Module App.
Import Net PyStr Query.

(** The entry field and the five check boxes, as [search_filings] reads
    them (lines 205-216). *)
Record form : Type := mkForm {
  cik_entry : string;
  var_485BXT : bool;
  var_485APOS : bool;
  var_485BPOS : bool;
  var_497 : bool;
  var_497k : bool
}.

(** The call scheduled with [root.after(0, ...)]. *)
Inductive callback : Type :=
| update_results (message : string) (error : bool)
| display_results (results : list (string * list (json * string))).

(** Lines 206-216: the labels of the ticked boxes, appended in the order
    of the five [if] statements. *)
Definition selected_types (f : form) : list string :=
  ((if var_485BXT f then ["485BXT"] else [])
   ++ (if var_485APOS f then ["485APOS"] else [])
   ++ (if var_485BPOS f then ["485BPOS"] else [])
   ++ (if var_497 f then ["497"] else [])
   ++ (if var_497k f then ["497k"] else []))%list.

(** [d[key] = value] on a dict kept in insertion order: an existing key
    keeps its place and takes the new value, a new key goes last. *)
Fixpoint dict_set {V : Type} (key : string) (value : V)
         (d : list (string * V)) : list (string * V) :=
  match d with
  | [] => [(key, value)]
  | (k, v) :: rest =>
      if k =? key then (k, value) :: rest
      else (k, v) :: dict_set key value rest
  end.

(** Lines 191-192 of [search_filings_by_cik]: the entry field is emptied
    and [cik] written into it. *)
Definition set_cik (cik : string) (f : form) : form :=
  {| cik_entry := cik;
     var_485BXT := var_485BXT f; var_485APOS := var_485APOS f;
     var_485BPOS := var_485BPOS f; var_497 := var_497 f;
     var_497k := var_497k f |}.

Section WithEnv.
Variable E : env.

(** Lines 222-225: one call of [get_filings] per selected type. *)
Fixpoint search_loop (cik : string) (types : list string)
         (results : list (string * list (json * string)))
  : M (list (string * list (json * string))) :=
  match types with
  | [] => ret results
  | filing_type :: rest =>
      filings <- get_filings E cik filing_type ;;
      search_loop cik rest (dict_set filing_type filings results)
  end.

(** Lines 203-226. An exception of [get_filings] is not caught here. *)
Definition search_filings (f : form) : M callback :=
  let cik := strip (cik_entry f) in
  let selected := selected_types f in
  match selected with
  | [] => ret (update_results "Please select at least one filing type." true)
  | _ :: _ =>
      results <- search_loop cik selected [] ;;
      ret (display_results results)
  end.

End WithEnv.

(** The entries of [results], in order, are what successive calls of
    [get_filings] returned, the first made in world [w], each later one in
    the world its predecessor left, the last one leaving [w']. *)
Fixpoint calls_in_order (E : env) (cik : string)
         (results : list (string * list (json * string)))
         (w w' : world) : Prop :=
  match results with
  | [] => w' = w
  | (filing_type, filings) :: rest =>
      exists w1,
        get_filings E cik filing_type w = (Ok filings, w1)
        /\ calls_in_order E cik rest w1 w'
  end.

End App.

(** ** Predicates on traces and states used in the statements below *)
Module Observe.
Import Net.

(** A governor sleep of positive length. *)
Definition positive_sleep (e : event) : Prop :=
  match e with
  | RateSleep d => (0 < d)%Q
  | _ => True
  end.

(** A governor sleep no longer than the minimum interval. *)
Definition short_sleep (e : event) : Prop :=
  match e with
  | RateSleep d => (d <= Fetcher.min_interval)%Q
  | _ => True
  end.

(** A decoded value that is an object. *)
Definition is_object (v : json) : bool :=
  match v with
  | JObj _ => true
  | _ => false
  end.

(** Successive clock readings never go back. *)
Definition monotone (clock : nat -> Q) : Prop :=
  forall n m, n <= m -> (clock n <= clock m)%Q.

(** The sleep of one pass through the governor's section (lines 34-38)
    entered in world [w]: the remainder of the minimum interval when less
    than that has passed since the recorded time, none otherwise. *)
Definition governor_sleep (E : env) (w : world) : list event :=
  let elapsed := (clock E (ticks w) - last_request_time w)%Q in
  if Qltb elapsed Fetcher.min_interval
  then [RateSleep (Fetcher.min_interval - elapsed)%Q]
  else [].

(** What a run of the loop of [sec_get] over [budget] attempts has done to
    a world: the events added, the requests made, the clock readings
    taken and the recorded time. *)
Definition loop_effects (E : env) (url : string) (budget : nat)
           (w w' : world) : Prop :=
  exists new,
    trace w' = (trace w ++ new)%list
    /\ Forall positive_sleep new
    /\ (monotone (clock E) ->
        (last_request_time w <= clock E (ticks w))%Q ->
        Forall short_sleep new)
    /\ gets new = repeat url (List.length (gets new))
    /\ List.length (gets new) <= budget
    /\ (0 < budget -> 1 <= List.length (gets new))
    /\ ticks w' = ticks w + 2 * List.length (gets new)
    /\ requests w' = requests w + List.length (gets new)
    /\ (gets new = [] -> w' = w)
    /\ (gets new <> [] -> last_request_time w' = clock E (ticks w' - 1)).

End Observe.

(** ** Comparison of strings without regard to letter case

    Stated on the characters themselves, without [lower]: two characters
    are the same letter when they are equal or when one is a capital and
    the other stands 32 places above it. *)
Module Caseless.
Import PyStr.

Definition is_upper (c : ascii) : bool :=
  let n := nat_of_ascii c in
  ((65 <=? n) && (n <=? 90))%nat
  || ((192 <=? n) && (n <=? 214))%nat
  || ((216 <=? n) && (n <=? 222))%nat.

Definition same_letter (a b : ascii) : bool :=
  let x := nat_of_ascii a in
  let y := nat_of_ascii b in
  (x =? y)%nat
  || (is_upper a && (y =? x + 32)%nat)
  || (is_upper b && (x =? y + 32)%nat).

(** [s] and [t] are equal up to the case of their letters. *)
Fixpoint same_ignoring_case (s t : string) : bool :=
  match s, t with
  | "", "" => true
  | String a s', String b t' => same_letter a b && same_ignoring_case s' t'
  | _, _ => false
  end.

(** Some tail of [s] equals [suffix] up to the case of its letters. *)
Fixpoint endswith_ignoring_case (s suffix : string) : bool :=
  same_ignoring_case s suffix ||
  match s with
  | "" => false
  | String _ rest => endswith_ignoring_case rest suffix
  end.

Definition no_upper (s : string) : bool :=
  all_chars (fun c => negb (is_upper c)) s.

(** The 256 characters. *)
Definition all_ascii : list ascii := map ascii_of_nat (seq 0 256).

End Caseless.

(** ** Progress of the threads of the governor *)
Module Progress.
Import Governor.

(** Every thread but [t] stands in [s'] where it stood in [s]. *)
Definition others_kept (t : nat) (s s' : state) : Prop :=
  forall t', t' <> t -> nth_error (threads s') t' = nth_error (threads s) t'.

(** Thread [t] can be run from [s] until it has left the critical section,
    by steps of its own and the passing of time alone. *)
Definition can_finish (t : nat) (s : state) : Prop :=
  exists schedule s',
    run schedule s = Some s'
    /\ nth_error (threads s') t = Some AtRequest
    /\ lock s' = None
    /\ others_kept t s s'.

(** The holder of the lock is a thread inside the critical section. *)
Definition holder_inside (s : state) : Prop :=
  forall t, lock s = Some t ->
            exists p, nth_error (threads s) t = Some p /\ in_critical p = true.

(** The clock at each call of [requests.get] (line 40) made in the course
    of a schedule, in the order of the calls. *)
Fixpoint issue_times (schedule : list action) (s : state) : list Q :=
  match schedule with
  | [] => []
  | a :: rest =>
      match step a s with
      | None => []
      | Some s' =>
          (match a with
           | Run t =>
               match nth_error (threads s) t with
               | Some AtRequest => [clock s]
               | _ => []
               end
           | Tick _ => []
           end ++ issue_times rest s')%list
      end
  end.

(** The recorded time is the newest stamp (0 before the first) and is not
    ahead of the clock. *)
Record recorded (s : state) : Prop := mkRecorded {
  rec_past : (last_request_time s <= clock s)%Q;
  rec_newest : last_request_time s = hd 0%Q (stamps s)
}.

End Progress.

(** ** Concrete environments used to exercise the model *)
Module Examples.
Import Net.

Definition seconds (n : nat) : Q := inject_Z (Z.of_nat n).

Definition throttled : response := {| status_code := 429; text := "" |}.

Definition page (body : string) : response := {| status_code := 200; text := body |}.

(** Fields separated by single spaces. *)
Fixpoint fields (s acc : string) : list string :=
  match s with
  | "" => match acc with "" => [] | _ => [acc] end
  | String c rest =>
      if Ascii.eqb c " "
      then match acc with "" => fields rest "" | _ => acc :: fields rest "" end
      else fields rest (acc ++ String c "")
  end.

Definition no_json (body : string) : option json := None.

(** An upstream that throttles every request. *)
Definition always_429 : env :=
  {| clock := seconds;
     upstream := fun _ _ => Returns throttled;
     find_all_a_href := fun body => fields body "";
     json_loads := no_json |}.

(** An upstream that throttles once, then times out. *)
Definition then_timeout : env :=
  {| clock := seconds;
     upstream := fun n _ =>
       match n with
       | 1 => Fails (Timeout "read timed out")
       | _ => Returns throttled
       end;
     find_all_a_href := fun body => fields body "";
     json_loads := no_json |}.

(** A listing page with the three links of the usual filing index. *)
Definition listing : env :=
  {| clock := seconds;
     upstream := fun _ _ =>
       Returns (page "index.html primary-doc.htm exhibit99.htm");
     find_all_a_href := fun body => fields body "";
     json_loads := no_json |}.

(** A listing page whose links differ in letter case, with a text file and
    a link into a subfolder among them. *)
Definition mixed_case : env :=
  {| clock := seconds;
     upstream := fun _ _ =>
       Returns (page "INDEX.HTML Primary-Doc.HTM notes.TXT Exhibit99.Htm sub/x.htm Index.html");
     find_all_a_href := fun body => fields body "";
     json_loads := no_json |}.

(** An issuer with three filings, each with the usual listing page. *)
Definition three_filings : json :=
  Query.manifest ["10-K"; "8-K"; "10-K"]
                 ["0001-23-000111"; "0002-23-000222"; "0003-23-000333"]
                 ["2023-01-01"; "2023-02-01"; "2023-03-01"].

(** The same manifest with the last accession number missing. *)
Definition short_accessions : json :=
  Query.manifest ["10-K"; "8-K"; "10-K"]
                 ["0001-23-000111"; "0002-23-000222"]
                 ["2023-01-01"; "2023-02-01"; "2023-03-01"].

Definition serving (document : json) : env :=
  {| clock := seconds;
     upstream := fun _ url =>
       if url =? Query.manifest_url "0001415995"
       then Returns (page "manifest")
       else Returns (page "index.html primary-doc.htm exhibit99.htm");
     find_all_a_href := fun body => fields body "";
     json_loads := fun body =>
       if body =? "manifest" then Some document else None |}.

(** Two threads call [sec_get] at the same moment: thread 0 goes first,
    thread 1 finds the recorded time fresh, sleeps, and follows a quarter
    of a second later. *)
Definition two_callers : list Governor.action :=
  [ Governor.Run 0; Governor.Run 0; Governor.Run 0; Governor.Run 0;
    Governor.Run 0;
    Governor.Run 1; Governor.Run 1; Governor.Run 0; Governor.Run 1;
    Governor.Run 1; Governor.Tick (1 # 4); Governor.Run 1; Governor.Run 1;
    Governor.Run 1; Governor.Run 1 ].

(** The same two callers, but thread 0, having left the critical section
    at time 1000, is not scheduled again until thread 1 has left it too, a
    quarter of a second later; then both call [requests.get]. *)
Definition two_racing : list Governor.action :=
  [ Governor.Run 0; Governor.Run 0; Governor.Run 0; Governor.Run 0;
    Governor.Run 0;
    Governor.Run 1; Governor.Run 1; Governor.Run 1; Governor.Run 1;
    Governor.Tick (1 # 4); Governor.Run 1; Governor.Run 1; Governor.Run 1;
    Governor.Run 0; Governor.Run 1 ].

(** No box ticked; two boxes ticked, with blanks around the issuer id. *)
Definition nothing_ticked : App.form :=
  {| App.cik_entry := "1415995";
     App.var_485BXT := false; App.var_485APOS := false;
     App.var_485BPOS := false; App.var_497 := false; App.var_497k := false |}.

Definition two_ticked : App.form :=
  {| App.cik_entry := " 1415995 ";
     App.var_485BXT := true; App.var_485APOS := false;
     App.var_485BPOS := false; App.var_497 := true; App.var_497k := false |}.

(** Documents of the wrong shape. *)
Definition empty_object : json := JObj [].

Definition a_list : json := JArr [JStr "10-K"].

End Examples.

(** * Properties *)

(** ** Strings *)
Section StringFacts.
Import PyStr.

Lemma length_append (s t : string) :
  String.length (s ++ t) = String.length s + String.length t.
Proof. induction s as [|c s IH]; simpl; [reflexivity | now rewrite IH]. Qed.

Lemma length_repeat_char (c : ascii) (n : nat) :
  String.length (repeat_char c n) = n.
Proof. induction n as [|n IH]; simpl; [reflexivity | now rewrite IH]. Qed.

Lemma all_chars_append (p : ascii -> bool) (s t : string) :
  all_chars p (s ++ t) = all_chars p s && all_chars p t.
Proof.
  induction s as [|c s IH]; simpl; [reflexivity|].
  now rewrite IH, andb_assoc.
Qed.

Lemma all_chars_repeat_zero (n : nat) :
  all_chars is_digit (repeat_char "0" n) = true.
Proof. induction n as [|n IH]; simpl; [reflexivity | exact IH]. Qed.

(** A digit string does not start with a sign, so [zfill] pads it plainly. *)
Lemma zfill_digits_short (width : nat) (s : string) :
  all_chars is_digit s = true ->
  String.length s < width ->
  zfill width s = repeat_char "0" (width - String.length s) ++ s.
Proof.
  intros Hd Hlen. unfold zfill.
  destruct (Nat.leb_spec width (String.length s)) as [Hle|_]; [lia|].
  destruct s as [|c rest]; [reflexivity|].
  simpl in Hd. apply andb_prop in Hd as [Hc _].
  destruct c as [[] [] [] [] [] [] [] []]; try reflexivity; discriminate Hc.
Qed.

Lemma zfill_long (width : nat) (s : string) :
  width <= String.length s -> zfill width s = s.
Proof.
  intros Hle. unfold zfill.
  destruct (Nat.leb_spec width (String.length s)) as [_|Hlt]; [reflexivity | lia].
Qed.

Lemma startswith_dash (c : ascii) (rest : string) :
  startswith (String c rest) "-" = Ascii.eqb c "-".
Proof. cbn [startswith]. apply andb_true_r. Qed.

Lemma replace_dash (s : string) :
  replace "-" "" s = remove_char "-" s.
Proof.
  unfold replace.
  induction s as [|c rest IH]; [reflexivity|].
  cbn [replace_from remove_char]. rewrite startswith_dash.
  destruct (Ascii.eqb c "-"); cbn; now rewrite IH.
Qed.

Lemma remove_char_absent (c : ascii) (s : string) :
  contains (String c "") (remove_char c s) = false.
Proof.
  induction s as [|d rest IH]; [reflexivity|].
  simpl. destruct (Ascii.eqb_spec d c) as [->|Hne]; [exact IH|].
  cbn [contains startswith]. rewrite IH, andb_true_r, orb_false_r.
  now apply Ascii.eqb_neq.
Qed.

End StringFacts.

(** C6. For every issuer id made of digits and shorter than 10
    characters, [cik.zfill(10)] is the id with zeros put in front, exactly
    10 digits long; for every string of 10 characters or more,
    [cik.zfill(10)] is the string itself, nothing cut off. *)
Theorem zfill_normalizes_cik (cik : string) :
  (PyStr.all_chars PyStr.is_digit cik = true ->
   String.length cik < 10 ->
     PyStr.zfill 10 cik = PyStr.repeat_char "0" (10 - String.length cik) ++ cik
     /\ String.length (PyStr.zfill 10 cik) = 10
     /\ PyStr.all_chars PyStr.is_digit (PyStr.zfill 10 cik) = true)
  /\ (10 <= String.length cik -> PyStr.zfill 10 cik = cik).
Proof.
  split.
  - intros Hdigits Hshort.
    rewrite (zfill_digits_short 10 cik Hdigits Hshort).
    split; [reflexivity|]. split.
    + rewrite length_append, length_repeat_char. lia.
    + rewrite all_chars_append, all_chars_repeat_zero. exact Hdigits.
  - apply zfill_long.
Qed.

Lemma zfill_normalizes_cik_witness :
  PyStr.zfill 10 "1415995" = "0001415995"
  /\ PyStr.zfill 10 "00014159950" = "00014159950".
Proof.
  pose proof (zfill_normalizes_cik "1415995") as [Hshort _].
  pose proof (zfill_normalizes_cik "00014159950") as [_ Hlong].
  split.
  - destruct Hshort as [H _]; [reflexivity | simpl; lia | exact H].
  - apply Hlong. simpl. lia.
Defined.

(** C8. Stripping "0001234567-23-000111" gives "000123456723000111", and
    the original form is kept next to the stripped one: for every
    accession number the pair built at lines 116-117 holds the number
    without its dashes, other characters in order, and the number as it
    was. *)
Theorem accession_ids_keeps_both :
  Query.accession_ids "0001234567-23-000111"
    = ("000123456723000111", "0001234567-23-000111")
  /\ forall accession_number : string,
       fst (Query.accession_ids accession_number)
         = PyStr.remove_char "-" accession_number
       /\ PyStr.contains "-" (fst (Query.accession_ids accession_number)) = false
       /\ snd (Query.accession_ids accession_number) = accession_number.
Proof.
  split; [reflexivity|].
  intros a. unfold Query.accession_ids. cbn [fst snd].
  rewrite replace_dash. split; [reflexivity|]. split; [|reflexivity].
  apply remove_char_absent.
Qed.

(** ** The fetcher *)
Section FetcherFacts.
Import Net Fetcher.
Variable E : env.

Lemma plan_app (a b : list event) : plan (a ++ b) = (plan a ++ plan b)%list.
Proof. apply filter_app. Qed.

Lemma backoffs_app (a b : list event) :
  backoffs (a ++ b) = (backoffs a ++ backoffs b)%list.
Proof.
  induction a as [|e a IH]; [reflexivity|].
  destruct e; simpl; now rewrite IH.
Qed.

Lemma gets_app (a b : list event) : gets (a ++ b) = (gets a ++ gets b)%list.
Proof.
  induction a as [|e a IH]; [reflexivity|].
  destruct e; simpl; now rewrite IH.
Qed.

(** The governor's section always completes; it reads the clock twice,
    stores the second reading and adds at most one short sleep. *)
Lemma rate_limit_run (w : world) :
  exists rs,
    rate_limit E w
      = (Ok tt, {| ticks := S (S (ticks w));
                   last_request_time := clock E (S (ticks w));
                   requests := requests w;
                   trace := (trace w ++ rs)%list |})
    /\ plan rs = [].
Proof.
  unfold rate_limit, bind, time_time, get_last_request_time,
    set_last_request_time, emit, ret. cbn.
  destruct (Qltb _ _); cbn.
  - eexists [RateSleep _]. split; reflexivity.
  - exists []. rewrite app_nil_r. split; reflexivity.
Qed.

(** One turn of the loop: governor, request, then either a result, an
    exception, or the backoff wait and the next turn. *)
Lemma sec_get_loop_turn (url : string) (timeout attempt : nat)
      (rest : list nat) (prev : option response) (w : world) :
  exists rs t l,
    plan rs = [] /\
    let w1 := {| ticks := t; last_request_time := l;
                 requests := S (requests w);
                 trace := (trace w ++ rs ++ [Get url timeout])%list |} in
    sec_get_loop E url timeout (attempt :: rest) prev w =
      match upstream E (requests w) url with
      | Fails e => (Raise (RequestException e), w1)
      | Returns r =>
          if (status_code r =? 429)%Z
          then sec_get_loop E url timeout rest (Some r)
                 {| ticks := t; last_request_time := l;
                    requests := S (requests w);
                    trace := (trace w ++ rs ++ [Get url timeout;
                               BackoffSleep ((attempt + 1) * backoff_factor)])%list |}
          else (Ok r, w1)
      end.
Proof.
  destruct (rate_limit_run w) as (rs & Hrun & Hplan).
  exists rs, (S (S (ticks w))), (clock E (S (ticks w))).
  split; [exact Hplan|].
  cbn zeta. cbn [sec_get_loop]. unfold bind at 1. rewrite Hrun.
  unfold bind, requests_get. cbn [requests trace ticks Net.last_request_time].
  rewrite <- app_assoc.
  destruct (upstream E (requests w) url) as [r|e]; [|reflexivity].
  destruct (status_code r =? 429)%Z; [|reflexivity].
  unfold emit. cbn [requests trace ticks Net.last_request_time].
  rewrite <- !app_assoc. reflexivity.
Qed.

Lemma gets_plan (tr : list event) : gets (plan tr) = gets tr.
Proof.
  induction tr as [|e tr IH]; [reflexivity|].
  destruct e; simpl; now rewrite IH.
Qed.

Lemma backoffs_plan (tr : list event) : backoffs (plan tr) = backoffs tr.
Proof.
  induction tr as [|e tr IH]; [reflexivity|].
  destruct e; simpl; now rewrite IH.
Qed.

Ltac use_plans :=
  repeat match goal with H : plan _ = [] |- _ => rewrite H; clear H end.

Ltac close_run pre e :=
  eexists; cbn [fst snd trace requests]; rewrite <- ?app_assoc;
  split; [reflexivity|];
  split; [rewrite <- gets_plan, !plan_app; use_plans; cbn; lia|];
  split; [rewrite !plan_app; use_plans; cbn; easy|];
  exists pre, e; rewrite <- ?app_assoc; split; reflexivity.

Lemma sec_get_run (url : string) (timeout : nat) (w : world) :
  exists new,
    trace (snd (sec_get E url timeout w)) = (trace w ++ new)%list
    /\ requests (snd (sec_get E url timeout w))
         = requests w + List.length (gets new)
    /\ sec_get_behaviour E url timeout (requests w)
         (fst (sec_get E url timeout w)) (plan new)
    /\ exists before e, new = (before ++ [e])%list /\ is_rate_sleep e = false.
Proof.
  unfold sec_get, sec_get_behaviour. cbn [seq max_retries].
  set (G := Get url timeout).
  destruct (sec_get_loop_turn url timeout 0 [1; 2] None w)
    as (rs1 & t1 & l1 & Hp1 & ->). cbn zeta. fold G.
  destruct (upstream E (requests w) url) as [r1|e1].
  2: close_run rs1 G.
  destruct (status_code r1 =? 429)%Z.
  2: close_run rs1 G.
  match goal with |- context [sec_get_loop E url timeout [1; 2] (Some r1) ?w1] =>
    destruct (sec_get_loop_turn url timeout 1 [2] (Some r1) w1)
      as (rs2 & t2 & l2 & Hp2 & ->) end.
  cbn zeta. cbn [requests trace]. fold G.
  destruct (upstream E (S (requests w)) url) as [r2|e2].
  2: close_run (rs1 ++ [G; BackoffSleep 10] ++ rs2)%list G.
  destruct (status_code r2 =? 429)%Z.
  2: close_run (rs1 ++ [G; BackoffSleep 10] ++ rs2)%list G.
  match goal with |- context [sec_get_loop E url timeout [2] (Some r2) ?w2] =>
    destruct (sec_get_loop_turn url timeout 2 [] (Some r2) w2)
      as (rs3 & t3 & l3 & Hp3 & ->) end.
  cbn zeta. cbn [requests trace]. fold G.
  destruct (upstream E (S (S (requests w))) url) as [r3|e3].
  2: close_run (rs1 ++ [G; BackoffSleep 10] ++ rs2
                    ++ [G; BackoffSleep 20] ++ rs3)%list G.
  destruct (status_code r3 =? 429)%Z.
  - cbn [sec_get_loop ret].
    close_run (rs1 ++ [G; BackoffSleep 10] ++ rs2
                   ++ [G; BackoffSleep 20] ++ rs3 ++ [G])%list (BackoffSleep 30).
  - close_run (rs1 ++ [G; BackoffSleep 10] ++ rs2
                   ++ [G; BackoffSleep 20] ++ rs3)%list G.
Qed.

(** [sec_get] raises nothing but what [requests.get] raised. *)
Lemma sec_get_result (url : string) (timeout : nat) (w : world) :
  (exists r, fst (sec_get E url timeout w) = Ok r)
  \/ (exists e, fst (sec_get E url timeout w) = Raise (RequestException e)).
Proof.
  destruct (sec_get_run url timeout w) as (new & _ & _ & Hb & _).
  unfold sec_get_behaviour in Hb.
  repeat match type of Hb with
         | match ?x with _ => _ end => destruct x
         | (if ?c then _ else _) => destruct c
         end;
    destruct Hb as [-> _]; eauto.
Qed.

End FetcherFacts.

Section FetcherClaims.
Import Net Fetcher.

(** C2. On HTTP 429 [sec_get] tries again, three attempts at most, with a
    wait of 10 seconds after the first attempt and 20 seconds after the
    second and none before the first: whatever the upstream does, the
    requests and backoff waits of a call are an initial part of
    request, 10 s, request, 20 s, request, 30 s; a 429 answer to the first
    (and to the second) attempt is followed by a further attempt; and when
    all three attempts are answered 429 the call returns the third
    response as its value, without an exception. *)
Theorem sec_get_retries_on_429 (E : env) (url : string) (timeout : nat) (w : world) :
  let G := Get url timeout in
  let res := fst (sec_get E url timeout w) in
  exists new,
    trace (snd (sec_get E url timeout w)) = (trace w ++ new)%list
    /\ (exists rest,
          (plan new ++ rest)%list
            = [G; BackoffSleep 10; G; BackoffSleep 20; G; BackoffSleep 30])
    /\ List.length (gets new) <= 3
    /\ (forall r1,
          upstream E (requests w) url = Returns r1 ->
          status_code r1 = 429%Z ->
          2 <= List.length (gets new))
    /\ (forall r1 r2,
          upstream E (requests w) url = Returns r1 ->
          status_code r1 = 429%Z ->
          upstream E (S (requests w)) url = Returns r2 ->
          status_code r2 = 429%Z ->
          List.length (gets new) = 3)
    /\ (forall r1 r2 r3,
          upstream E (requests w) url = Returns r1 ->
          status_code r1 = 429%Z ->
          upstream E (S (requests w)) url = Returns r2 ->
          status_code r2 = 429%Z ->
          upstream E (S (S (requests w))) url = Returns r3 ->
          status_code r3 = 429%Z ->
          res = Ok r3).
Proof.
  intros G res. subst res.
  destruct (sec_get_run E url timeout w) as (new & Htr & _ & Hb & _).
  set (run := sec_get E url timeout w) in *. clearbody run.
  exists new. split; [exact Htr|].
  rewrite <- (gets_plan new).
  unfold sec_get_behaviour in Hb. fold G in Hb.
  destruct (upstream E (requests w) url) as [r1|e1].
  2:{ destruct Hb as [_ ->]. cbn.
      repeat split; try discriminate; try lia. eexists; reflexivity. }
  destruct (Z.eqb_spec (status_code r1) 429) as [H1|H1].
  2:{ destruct Hb as [_ ->]. cbn.
      repeat split; try lia; try (intros; congruence). eexists; reflexivity. }
  destruct (upstream E (S (requests w)) url) as [r2|e2].
  2:{ destruct Hb as [_ ->]. cbn.
      repeat split; try discriminate; try lia. eexists; reflexivity. }
  destruct (Z.eqb_spec (status_code r2) 429) as [H2|H2].
  2:{ destruct Hb as [_ ->]. cbn.
      repeat split; try lia; try (intros; congruence). eexists; reflexivity. }
  destruct (upstream E (S (S (requests w))) url) as [r3|e3].
  2:{ destruct Hb as [_ ->]. cbn.
      repeat split; try discriminate; try lia. eexists; reflexivity. }
  destruct Hb as [Hres ->].
  destruct (Z.eqb_spec (status_code r3) 429) as [H3|H3]; cbn;
    (split; [eexists; reflexivity|]);
    repeat split; try lia; intros; congruence.
Qed.

Lemma sec_get_retries_on_429_witness :
  fst (sec_get Examples.always_429 "https://data.sec.gov/x" 10 initial_world)
    = Ok Examples.throttled.
Proof.
  destruct (sec_get_retries_on_429 Examples.always_429
              "https://data.sec.gov/x" 10 initial_world)
    as (new & _ & _ & _ & _ & _ & Hall).
  apply (Hall Examples.throttled Examples.throttled Examples.throttled);
    reflexivity.
Defined.

(** C7. A network failure of [requests.get] is not retried: if the first
    [k] attempts (k < 3) were answered 429 and the next one raises, the
    call raises that same exception, has made [k + 1] requests, and the
    failing request is the last thing it did. *)
Theorem sec_get_network_error_propagates
    (E : env) (url : string) (timeout : nat) (w : world)
    (k : nat) (e : request_error)
    (Hk : k < 3)
    (Hthrottled : forall j, j < k ->
        exists r, upstream E (requests w + j) url = Returns r
                  /\ status_code r = 429%Z)
    (Hfails : upstream E (requests w + k) url = Fails e) :
  fst (sec_get E url timeout w) = Raise (RequestException e)
  /\ requests (snd (sec_get E url timeout w)) = requests w + S k
  /\ exists before,
       trace (snd (sec_get E url timeout w))
         = (trace w ++ before ++ [Get url timeout])%list
       /\ List.length (gets before) = k.
Proof.
  destruct (sec_get_run E url timeout w)
    as (new & Htr & Hreq & Hb & before & ev & Hnew & Hev).
  set (run := sec_get E url timeout w) in *. clearbody run.
  unfold sec_get_behaviour in Hb.
  assert (Hcase : fst run = Raise (RequestException e)
                  /\ List.length (gets (plan new)) = S k
                  /\ exists p, plan new = (p ++ [Get url timeout])%list).
  { destruct k as [|[|[|k]]]; [| | |lia].
    - rewrite Nat.add_0_r in Hfails. rewrite Hfails in Hb.
      destruct Hb as [-> ->]. repeat split. now exists [].
    - destruct (Hthrottled 0) as (r1 & Hr1 & Hs1); [lia|].
      rewrite Nat.add_0_r in Hr1. rewrite Nat.add_1_r in Hfails.
      rewrite Hr1, Hs1, Hfails in Hb. cbn in Hb.
      destruct Hb as [-> ->]. repeat split.
      now exists [Get url timeout; BackoffSleep 10].
    - destruct (Hthrottled 0) as (r1 & Hr1 & Hs1); [lia|].
      destruct (Hthrottled 1) as (r2 & Hr2 & Hs2); [lia|].
      rewrite Nat.add_0_r in Hr1. rewrite Nat.add_1_r in Hr2.
      replace (requests w + 2) with (S (S (requests w))) in Hfails by lia.
      rewrite Hr1, Hs1, Hr2, Hs2, Hfails in Hb. cbn in Hb.
      destruct Hb as [-> ->]. repeat split.
      now exists [Get url timeout; BackoffSleep 10; Get url timeout; BackoffSleep 20]. }
  destruct Hcase as (Hres & Hlen & p & Hp).
  split; [exact Hres|].
  rewrite gets_plan in Hlen.
  split; [rewrite Hreq, Hlen; reflexivity|].
  assert (Hlast : ev = Get url timeout).
  { rewrite Hnew, plan_app in Hp. cbn in Hp. rewrite Hev in Hp. cbn in Hp.
    apply app_inj_tail in Hp. tauto. }
  subst ev new. exists before. split; [exact Htr|].
  rewrite gets_app, length_app in Hlen. cbn in Hlen. lia.
Qed.

Lemma sec_get_network_error_propagates_witness :
  fst (sec_get Examples.then_timeout "https://data.sec.gov/x" 10 initial_world)
    = Raise (RequestException (Timeout "read timed out"))
  /\ requests (snd (sec_get Examples.then_timeout "https://data.sec.gov/x" 10
                      initial_world)) = 2.
Proof.
  destruct (sec_get_network_error_propagates Examples.then_timeout
              "https://data.sec.gov/x" 10 initial_world 1
              (Timeout "read timed out")) as (Hres & Hreq & _).
  - lia.
  - intros j Hj. exists Examples.throttled.
    assert (j = 0) as -> by lia. split; reflexivity.
  - reflexivity.
  - split; [exact Hres | exact Hreq].
Defined.

(** C9. When all three attempts are answered 429, [sec_get] also sleeps
    after the third: its backoff waits are 10, 20 and 30 seconds, 60 in
    all, the 30-second wait is the last thing it does, no request follows
    it, and it then returns the third response. *)
Theorem sec_get_sleeps_after_last_attempt
    (E : env) (url : string) (timeout : nat) (w : world)
    (r1 r2 r3 : response)
    (H1 : upstream E (requests w) url = Returns r1)
    (S1 : status_code r1 = 429%Z)
    (H2 : upstream E (S (requests w)) url = Returns r2)
    (S2 : status_code r2 = 429%Z)
    (H3 : upstream E (S (S (requests w))) url = Returns r3)
    (S3 : status_code r3 = 429%Z) :
  let G := Get url timeout in
  exists before,
    trace (snd (sec_get E url timeout w))
      = (trace w ++ before ++ [BackoffSleep 30])%list
    /\ plan before = [G; BackoffSleep 10; G; BackoffSleep 20; G]
    /\ backoffs (before ++ [BackoffSleep 30]) = [10; 20; 30]
    /\ list_sum (backoffs (before ++ [BackoffSleep 30])) = 60
    /\ fst (sec_get E url timeout w) = Ok r3.
Proof.
  intros G.
  destruct (sec_get_run E url timeout w)
    as (new & Htr & _ & Hb & before & ev & Hnew & Hev).
  set (run := sec_get E url timeout w) in *. clearbody run.
  unfold sec_get_behaviour in Hb. fold G in Hb.
  rewrite H1, S1, H2, S2, H3, S3 in Hb. cbn in Hb.
  destruct Hb as [Hres Hplan].
  rewrite Hnew, plan_app in Hplan. cbn in Hplan. rewrite Hev in Hplan.
  cbn in Hplan.
  change [G; BackoffSleep 10; G; BackoffSleep 20; G; BackoffSleep 30]
    with ([G; BackoffSleep 10; G; BackoffSleep 20; G] ++ [BackoffSleep 30])%list
    in Hplan.
  apply app_inj_tail in Hplan as [Hbefore ->].
  exists before. subst new. split; [exact Htr|].
  split; [exact Hbefore|].
  rewrite backoffs_app, <- backoffs_plan, Hbefore. cbn.
  repeat split. exact Hres.
Qed.

Lemma sec_get_sleeps_after_last_attempt_witness :
  backoffs (trace (snd (sec_get Examples.always_429 "https://data.sec.gov/x" 10
                          initial_world))) = [10; 20; 30].
Proof.
  destruct (sec_get_sleeps_after_last_attempt Examples.always_429
              "https://data.sec.gov/x" 10 initial_world
              Examples.throttled Examples.throttled Examples.throttled
              eq_refl eq_refl eq_refl eq_refl eq_refl eq_refl)
    as (before & Htr & _ & Hb & _).
  rewrite Htr. exact Hb.
Defined.

End FetcherClaims.

(** ** The document resolver *)
Section ResolverFacts.
Import Net PyStr Fetcher Resolver.

Lemma collect_candidates_filter (links acc : list string) :
  collect_candidates links acc
    = (acc ++ filter is_candidate (map strip links))%list.
Proof.
  revert acc. induction links as [|link rest IH]; intros acc.
  - cbn. now rewrite app_nil_r.
  - cbn [collect_candidates map filter].
    set (h := strip link).
    change (is_candidate h) with
      ((endswith (lower h) ".htm" || endswith (lower h) ".html")
       && negb (contains "/" h) && negb (endswith (lower h) ".txt")).
    destruct ((endswith (lower h) ".htm" || endswith (lower h) ".html")
              && negb (contains "/" h)); cbn [andb].
    + destruct (endswith (lower h) ".txt"); cbn [negb].
      * apply IH.
      * rewrite IH, <- app_assoc. reflexivity.
    + apply IH.
Qed.

Lemma filter_negb_none {A} (p : A -> bool) (l : list A) :
  forallb p l = true -> filter (fun x => negb (p x)) l = [].
Proof.
  induction l as [|x l IH]; [reflexivity|]. cbn.
  intros H. apply andb_prop in H as [Hx Hl].
  rewrite Hx. cbn. auto.
Qed.

Lemma choose_url_non_index (base_url index_url : string)
      (pre post : list string) (f : string) :
  is_index f = false ->
  forallb is_index post = true ->
  choose_url base_url index_url (pre ++ f :: post) = base_url ++ f.
Proof.
  intros Hf Hpost. unfold choose_url.
  pose proof (filter_negb_none is_index post Hpost) as Hnone.
  unfold is_index in Hf, Hnone.
  rewrite filter_app. cbn [filter]. rewrite Hf, Hnone. cbn [negb].
  rewrite last_last.
  destruct (filter _ pre); reflexivity.
Qed.

Lemma choose_url_only_index (base_url index_url : string)
      (pre : list string) (f : string) :
  forallb is_index (pre ++ [f]) = true ->
  choose_url base_url index_url (pre ++ [f]) = base_url ++ f.
Proof.
  intros Hall. unfold choose_url.
  pose proof (filter_negb_none is_index _ Hall) as Hnone.
  unfold is_index in Hnone. rewrite Hnone, last_last.
  destruct pre; reflexivity.
Qed.

(** The resolver, by the result of the fetch it starts with. *)
Lemma get_native_filing_url_unfold (E : env)
      (cik accession_stripped accession_original : string) (w : world) :
  fst (get_native_filing_url E cik accession_stripped accession_original w) =
    match fst (sec_get E (index_url_of cik accession_stripped) 10 w) with
    | Ok response =>
        if ((400 <=? status_code response) && (status_code response <? 600))%Z
        then Ok (index_url_of cik accession_stripped)
        else Ok (choose_url (base_url_of cik accession_stripped)
                            (index_url_of cik accession_stripped)
                            (collect_candidates
                               (find_all_a_href E (text response)) []))
    | Raise (RequestException _) => Ok (index_url_of cik accession_stripped)
    | Raise e => Raise e
    end.
Proof.
  unfold get_native_filing_url, index_url_of, bind, raise_for_status.
  destruct (sec_get E _ 10 w) as [[response|e] w1]; cbn [fst].
  - destruct ((400 <=? status_code response) && (status_code response <? 600))%Z;
      reflexivity.
  - destruct e; reflexivity.
Qed.

End ResolverFacts.

Section ResolverClaims.
Import Net PyStr Fetcher Resolver.

Lemma in_all_ascii (a : ascii) : In a Caseless.all_ascii.
Proof.
  unfold Caseless.all_ascii. rewrite <- (ascii_nat_embedding a).
  apply in_map, in_seq. pose proof (nat_ascii_bounded a). lia.
Qed.

(** [lower_char] sends [a] to a character that is no capital exactly when
    the two are the same letter. *)
Lemma lower_char_same_letter (a b : ascii) :
  Caseless.is_upper b = false ->
  Ascii.eqb (lower_char a) b = Caseless.same_letter a b.
Proof.
  assert (Hall : forallb (fun a =>
                   forallb (fun b =>
                     implb (negb (Caseless.is_upper b))
                           (Bool.eqb (Ascii.eqb (lower_char a) b)
                                     (Caseless.same_letter a b)))
                     Caseless.all_ascii) Caseless.all_ascii = true)
    by (vm_compute; reflexivity).
  intros Hb. rewrite forallb_forall in Hall.
  specialize (Hall a (in_all_ascii a)). rewrite forallb_forall in Hall.
  specialize (Hall b (in_all_ascii b)). rewrite Hb in Hall. cbn in Hall.
  now apply Bool.eqb_prop.
Qed.

Lemma lower_same_ignoring_case (s t : string) :
  Caseless.no_upper t = true ->
  (lower s =? t) = Caseless.same_ignoring_case s t.
Proof.
  revert t. induction s as [|a s IH]; intros [|b t] Ht; cbn; try reflexivity.
  cbn in Ht. apply andb_prop in Ht as [Hb Ht]. apply negb_true_iff in Hb.
  now rewrite (lower_char_same_letter a b Hb), (IH t Ht).
Qed.

Lemma endswith_lower (s suffix : string) :
  Caseless.no_upper suffix = true ->
  endswith (lower s) suffix = Caseless.endswith_ignoring_case s suffix.
Proof.
  intros Hs. induction s as [|a s IH].
  - cbn [lower endswith Caseless.endswith_ignoring_case].
    now rewrite <- (lower_same_ignoring_case "" suffix Hs).
  - cbn [lower endswith Caseless.endswith_ignoring_case].
    rewrite <- IH, <- (lower_same_ignoring_case (String a s) suffix Hs).
    reflexivity.
Qed.

(** The test of lines 72-76 and the test of line 79, without [lower]. *)
Lemma is_candidate_caseless (href : string) :
  is_candidate href =
    (Caseless.endswith_ignoring_case href ".htm"
     || Caseless.endswith_ignoring_case href ".html")
    && negb (contains "/" href)
    && negb (Caseless.endswith_ignoring_case href ".txt").
Proof.
  unfold is_candidate.
  now rewrite !endswith_lower by reflexivity.
Qed.

Lemma is_index_caseless (f : string) :
  is_index f = Caseless.same_ignoring_case f "index.html".
Proof. unfold is_index. now apply lower_same_ignoring_case. Qed.

(** C3. When the listing page was fetched, the candidates are exactly the
    trimmed hrefs, in document order, that end in .htm or .html whatever
    the case of their letters, hold no '/', and do not end in .txt in any
    letter case. The result is the base URL followed by the last candidate
    that is not "index.html" in any letter case; if every candidate is so
    named, the base URL followed by the last candidate; with no candidate,
    the URL of the listing page. Letter case is compared on the
    characters, not through [lower]. *)
Theorem resolver_picks_last_candidate
    (E : env) (cik accession_stripped accession_original : string)
    (w : world) (response : response)
    (Hfetch : fst (sec_get E (index_url_of cik accession_stripped) 10 w)
              = Ok response)
    (Hok : ((400 <=? status_code response)
            && (status_code response <? 600))%Z = false) :
  let hrefs := map strip (find_all_a_href E (text response)) in
  let candidates :=
    filter (fun href =>
              (Caseless.endswith_ignoring_case href ".htm"
               || Caseless.endswith_ignoring_case href ".html")
              && negb (contains "/" href)
              && negb (Caseless.endswith_ignoring_case href ".txt"))
           hrefs in
  let named_index := fun f => Caseless.same_ignoring_case f "index.html" in
  let url := fst (get_native_filing_url E cik accession_stripped
                    accession_original w) in
  (forall href,
      In href candidates <->
      In href hrefs
      /\ (Caseless.endswith_ignoring_case href ".htm" = true
          \/ Caseless.endswith_ignoring_case href ".html" = true)
      /\ contains "/" href = false
      /\ Caseless.endswith_ignoring_case href ".txt" = false)
  /\ (forall pre f post,
         candidates = (pre ++ f :: post)%list ->
         named_index f = false ->
         forallb named_index post = true ->
         url = Ok (base_url_of cik accession_stripped ++ f))
  /\ (forall pre f,
         candidates = (pre ++ [f])%list ->
         forallb named_index candidates = true ->
         url = Ok (base_url_of cik accession_stripped ++ f))
  /\ (candidates = [] -> url = Ok (index_url_of cik accession_stripped)).
Proof.
  intros hrefs candidates named_index url.
  assert (Hcand : candidates = filter is_candidate hrefs).
  { subst candidates. apply filter_ext. intros href.
    symmetry. apply is_candidate_caseless. }
  assert (Hnamed : forall l, forallb named_index l = forallb is_index l).
  { intros l. induction l as [|x l IH]; [reflexivity|]. cbn.
    subst named_index. cbn beta. now rewrite <- is_index_caseless, IH. }
  assert (Hurl : url = Ok (choose_url (base_url_of cik accession_stripped)
                             (index_url_of cik accession_stripped) candidates)).
  { subst url. rewrite get_native_filing_url_unfold, Hfetch, Hok, Hcand.
    now rewrite collect_candidates_filter. }
  split; [|split; [|split]].
  - intros href. subst candidates. rewrite filter_In.
    rewrite !andb_true_iff, orb_true_iff, !negb_true_iff. tauto.
  - intros pre f post Hc Hf Hpost. rewrite Hurl, Hc.
    apply f_equal. apply choose_url_non_index.
    + rewrite is_index_caseless. exact Hf.
    + rewrite <- Hnamed. exact Hpost.
  - intros pre f Hc Hall. rewrite Hurl. rewrite Hc in Hall |- *.
    apply f_equal. apply choose_url_only_index. now rewrite <- Hnamed.
  - intros Hc. rewrite Hurl, Hc. reflexivity.
Qed.

Lemma resolver_picks_last_candidate_witness :
  fst (get_native_filing_url Examples.mixed_case "0001415995"
         "000123456723000111" "0001234567-23-000111" initial_world)
  = Ok "https://www.sec.gov/Archives/edgar/data/0001415995/000123456723000111/Exhibit99.Htm".
Proof.
  destruct (resolver_picks_last_candidate Examples.mixed_case
              "0001415995" "000123456723000111" "0001234567-23-000111"
              initial_world
              (Examples.page "INDEX.HTML Primary-Doc.HTM notes.TXT Exhibit99.Htm sub/x.htm Index.html")
              eq_refl eq_refl) as (_ & Hlast & _).
  apply (Hlast ["INDEX.HTML"; "Primary-Doc.HTM"] "Exhibit99.Htm" ["Index.html"]);
    reflexivity.
Defined.



End ResolverClaims.

(** ** The filings query *)
Section QueryFacts.
Import Net PyStr Fetcher Resolver Query.
Variable E : env.

(** The resolver returns a URL in every world. *)
Lemma get_native_filing_url_total
      (cik accession_stripped accession_original : string) (w : world) :
  exists u w',
    get_native_filing_url E cik accession_stripped accession_original w
      = (Ok u, w').
Proof.
  pose proof (get_native_filing_url_unfold E cik accession_stripped
                accession_original w) as H.
  destruct (get_native_filing_url E cik accession_stripped
              accession_original w) as [res w'].
  cbn [fst] in H.
  destruct (sec_get_result E (index_url_of cik accession_stripped) 10 w)
    as [[r Hr]|[e He]].
  - rewrite Hr in H. destruct (_ && _)%bool in H; subst res; eauto.
  - rewrite He in H. subst res; eauto.
Qed.

Lemma index_strings (l : list string) (i : nat) :
  py_index (JArr (map JStr l)) i =
    match nth_error l i with
    | Some s => Ok (JStr s)
    | None => Raise IndexError
    end.
Proof.
  cbn [py_index]. rewrite nth_error_map. now destruct (nth_error l i).
Qed.

Lemma nth_error_nth_default (l : list string) (i : nat) :
  i < List.length l -> nth_error l i = Some (nth i l "").
Proof. intros H. now apply nth_error_nth'. Qed.

(** One turn of the loop at a matching form, both arrays long enough. *)
Lemma filings_loop_match (cik filing_type form : string)
      (accs dates : list string) (i : nat) (rest : list json)
      (results : list (json * string)) (w : world) :
  form = filing_type ->
  i < List.length accs ->
  i < List.length dates ->
  exists u w',
    get_native_filing_url E cik (replace "-" "" (nth i accs "")) (nth i accs "") w
      = (Ok u, w')
    /\ filings_loop E cik filing_type (JArr (map JStr accs)) (JArr (map JStr dates))
         i (JStr form :: rest) results w
       = filings_loop E cik filing_type (JArr (map JStr accs)) (JArr (map JStr dates))
           (S i) rest (results ++ [(JStr (nth i dates ""), u)])%list w'.
Proof.
  intros -> Ha Hd.
  destruct (get_native_filing_url_total cik (replace "-" "" (nth i accs ""))
              (nth i accs "") w) as (u & w' & Hu).
  exists u, w'. split; [exact Hu|].
  cbn [filings_loop py_eq_str]. rewrite String.eqb_refl.
  unfold bind at 1, lift at 1. rewrite index_strings, (nth_error_nth_default accs i Ha).
  unfold bind at 1, lift at 1. cbn [py_accession_ids accession_ids fst snd].
  unfold bind at 1. rewrite Hu.
  unfold bind at 1, lift at 1. rewrite index_strings, (nth_error_nth_default dates i Hd).
  reflexivity.
Qed.

Lemma filings_loop_skip (cik filing_type form : string)
      (accs dates : json) (i : nat) (rest : list json)
      (results : list (json * string)) (w : world) :
  form <> filing_type ->
  filings_loop E cik filing_type accs dates i (JStr form :: rest) results w
    = filings_loop E cik filing_type accs dates (S i) rest results w.
Proof.
  intros Hne. cbn [filings_loop py_eq_str].
  apply String.eqb_neq in Hne. now rewrite Hne.
Qed.

(** When every matching index lies inside both arrays, the loop returns
    what the specification's wording describes, one record per matching
    index. *)
Lemma filings_loop_in_range (cik filing_type : string) (accs dates : list string) :
  forall (forms : list string) (i : nat) (results : list (json * string)) (w : world),
    (forall j, In j (matching_indices filing_type i forms) ->
               j < List.length accs /\ j < List.length dates) ->
    exists records w',
      query_as_specified E cik filing_type accs dates i forms w = (Ok records, w')
      /\ filings_loop E cik filing_type (JArr (map JStr accs)) (JArr (map JStr dates))
           i (map JStr forms) results w = (Ok (results ++ records)%list, w')
      /\ map fst records
           = map (fun j => JStr (nth j dates ""))
                 (matching_indices filing_type i forms).
Proof.
  induction forms as [|form rest IH]; intros i results w Hrange.
  - exists [], w. cbn. now rewrite app_nil_r.
  - cbn [map matching_indices query_as_specified] in *.
    destruct (String.eqb_spec form filing_type) as [Heq|Hne].
    + destruct (Hrange i (or_introl eq_refl)) as [Ha Hd].
      destruct (filings_loop_match cik filing_type form accs dates i
                  (map JStr rest) results w Heq Ha Hd) as (u & w1 & Hu & ->).
      destruct (IH (S i) (results ++ [(JStr (nth i dates ""), u)])%list w1)
        as (records & w2 & Hspec & Hloop & Hdates).
      { intros j Hj. apply Hrange. now right. }
      exists ((JStr (nth i dates ""), u) :: records), w2.
      split; [|split].
      * unfold bind at 1. rewrite Hu. unfold bind at 1. rewrite Hspec. reflexivity.
      * rewrite Hloop, <- app_assoc. reflexivity.
      * cbn [map fst]. now rewrite Hdates.
    + rewrite (filings_loop_skip cik filing_type form _ _ i _ results w Hne).
      apply IH. exact Hrange.
Qed.

(** When some matching index lies outside one of the two arrays, the loop
    raises IndexError. *)
Lemma filings_loop_out_of_range (cik filing_type : string) (accs dates : list string) :
  forall (forms : list string) (i : nat) (results : list (json * string)) (w : world),
    (exists j, In j (matching_indices filing_type i forms)
               /\ (List.length accs <= j \/ List.length dates <= j)) ->
    exists w',
      filings_loop E cik filing_type (JArr (map JStr accs)) (JArr (map JStr dates))
        i (map JStr forms) results w = (Raise IndexError, w').
Proof.
  induction forms as [|form rest IH]; intros i results w (j & Hj & Hout).
  - destruct Hj.
  - cbn [map matching_indices] in *.
    destruct (String.eqb_spec form filing_type) as [Heq|Hne].
    + destruct (Nat.lt_ge_cases i (List.length accs)) as [Ha|Ha].
      * destruct (Nat.lt_ge_cases i (List.length dates)) as [Hd|Hd].
        -- destruct (filings_loop_match cik filing_type form accs dates i
                       (map JStr rest) results w Heq Ha Hd) as (u & w1 & _ & ->).
           apply IH. exists j. split; [|exact Hout].
           destruct Hj as [<-|Hj]; [lia | exact Hj].
        -- destruct (get_native_filing_url_total cik
                       (replace "-" "" (nth i accs "")) (nth i accs "") w)
             as (u & w1 & Hu).
           exists w1. subst form.
           cbn [filings_loop py_eq_str]. rewrite String.eqb_refl.
           unfold bind at 1, lift at 1.
           rewrite index_strings, (nth_error_nth_default accs i Ha).
           unfold bind at 1, lift at 1.
           cbn [py_accession_ids accession_ids fst snd].
           unfold bind at 1. rewrite Hu.
           unfold bind at 1, lift at 1. rewrite index_strings.
           apply nth_error_None in Hd. now rewrite Hd.
      * exists w. subst form.
        cbn [filings_loop py_eq_str]. rewrite String.eqb_refl.
        unfold bind at 1, lift at 1. rewrite index_strings.
        apply nth_error_None in Ha. now rewrite Ha.
    + rewrite (filings_loop_skip cik filing_type form _ _ i _ results w Hne).
      apply IH. now exists j.
Qed.

(** [get_filings] on a manifest that was fetched and decoded. *)
Lemma get_filings_manifest (cik filing_type : string)
      (forms accs dates : list string) (w w1 : world) (response : response) :
  sec_get E (manifest_url (zfill 10 cik)) 10 w = (Ok response, w1) ->
  ((400 <=? status_code response) && (status_code response <? 600))%Z = false ->
  json_loads E (text response) = Some (manifest forms accs dates) ->
  get_filings E cik filing_type w
    = filings_loop E (zfill 10 cik) filing_type
        (JArr (map JStr accs)) (JArr (map JStr dates)) 0 (map JStr forms) [] w1.
Proof.
  intros Hfetch Hok Hjson.
  unfold get_filings, bind at 1. rewrite Hfetch.
  unfold bind at 1, raise_for_status. rewrite Hok. cbn [ret].
  rewrite Hjson. reflexivity.
Qed.

Lemma matching_indices_In (filing_type : string) (forms : list string) :
  forall i j,
    In j (matching_indices filing_type i forms) <->
    i <= j /\ nth_error forms (j - i) = Some filing_type.
Proof.
  induction forms as [|form rest IH]; intros i j.
  - cbn [matching_indices In]. split; [tauto|].
    intros [_ H]. destruct (j - i); discriminate H.
  - cbn [matching_indices].
    assert (Hrest : In j (matching_indices filing_type (S i) rest) <->
                    i < j /\ nth_error (form :: rest) (j - i) = Some filing_type).
    { rewrite IH. split.
      - intros [Hle H]. split; [lia|].
        replace (j - i) with (S (j - S i)) by lia. exact H.
      - intros [Hlt H]. split; [lia|].
        replace (j - i) with (S (j - S i)) in H by lia. exact H. }
    destruct (String.eqb_spec form filing_type) as [->|Hne].
    + cbn [In]. rewrite Hrest. split.
      * intros [<-|[Hlt H]]; [|split; [lia | exact H]].
        split; [lia|]. now rewrite Nat.sub_diag.
      * intros [Hle H].
        destruct (Nat.eq_dec i j) as [->|Hij]; [now left | right].
        split; [lia | exact H].
    + rewrite Hrest. split.
      * intros [Hlt H]. split; [lia | exact H].
      * intros [Hle H]. split; [|exact H].
        destruct (Nat.eq_dec i j) as [->|Hij]; [|lia].
        rewrite Nat.sub_diag in H. cbn in H. congruence.
Qed.

Lemma matching_indices_from_zero (filing_type : string) (forms : list string) (j : nat) :
  In j (matching_indices filing_type 0 forms) <->
  nth_error forms j = Some filing_type.
Proof.
  rewrite matching_indices_In, Nat.sub_0_r. split; [tauto|].
  intros H. split; [lia | exact H].
Qed.

(** Matching indices come in increasing order: manifest order. *)
Lemma matching_indices_increasing (filing_type : string) (forms : list string) :
  forall i, StronglySorted lt (matching_indices filing_type i forms).
Proof.
  induction forms as [|form rest IH]; intros i; cbn [matching_indices].
  - constructor.
  - destruct (form =? filing_type); [|apply IH].
    constructor; [apply IH|].
    apply Forall_forall. intros j Hj.
    apply matching_indices_In in Hj. lia.
Qed.

End QueryFacts.

Section QueryClaims.
Import Net PyStr Fetcher Resolver Query.

(** C5. On a manifest whose three arrays have the same length,
    [get_filings] returns one record for each index whose form is the
    requested type (equality of strings), and only for those; the record
    pairs the filing date at that index with the URL the resolver returns
    for the stripped accession id at that index; the records stand in the
    order of the manifest. *)
Theorem get_filings_well_formed
    (E : env) (cik filing_type : string) (forms accs dates : list string)
    (w w1 : world) (response : response)
    (Hfetch : sec_get E (manifest_url (zfill 10 cik)) 10 w = (Ok response, w1))
    (Hok : ((400 <=? status_code response)
            && (status_code response <? 600))%Z = false)
    (Hjson : json_loads E (text response) = Some (manifest forms accs dates))
    (Haccs : List.length accs = List.length forms)
    (Hdates : List.length dates = List.length forms) :
  exists records w',
    get_filings E cik filing_type w = (Ok records, w')
    /\ query_as_specified E (zfill 10 cik) filing_type accs dates 0 forms w1
       = (Ok records, w')
    /\ map fst records
       = map (fun j => JStr (nth j dates ""))
             (matching_indices filing_type 0 forms)
    /\ List.length records
       = List.length (matching_indices filing_type 0 forms)
    /\ (forall j, In j (matching_indices filing_type 0 forms)
                  <-> nth_error forms j = Some filing_type)
    /\ StronglySorted lt (matching_indices filing_type 0 forms).
Proof.
  destruct (filings_loop_in_range E (zfill 10 cik) filing_type accs dates
              forms 0 [] w1) as (records & w' & Hspec & Hloop & Hd).
  { intros j Hj. apply matching_indices_from_zero in Hj.
    assert (j < List.length forms) by (apply nth_error_Some; congruence).
    lia. }
  exists records, w'.
  rewrite (get_filings_manifest E cik filing_type forms accs dates w w1
             response Hfetch Hok Hjson).
  split; [exact Hloop|]. split; [exact Hspec|]. split; [exact Hd|].
  split; [|split].
  - rewrite <- (length_map fst records), Hd. apply length_map.
  - apply matching_indices_from_zero.
  - apply matching_indices_increasing.
Qed.

Lemma get_filings_well_formed_witness :
  exists records,
    fst (get_filings (Examples.serving Examples.three_filings)
           "1415995" "10-K" initial_world) = Ok records
    /\ map fst records = [JStr "2023-01-01"; JStr "2023-03-01"]
    /\ List.length records = 2.
Proof.
  destruct (get_filings_well_formed (Examples.serving Examples.three_filings)
              "1415995" "10-K" ["10-K"; "8-K"; "10-K"]
              ["0001-23-000111"; "0002-23-000222"; "0003-23-000333"]
              ["2023-01-01"; "2023-02-01"; "2023-03-01"]
              initial_world
              (snd (sec_get (Examples.serving Examples.three_filings)
                      (manifest_url (zfill 10 "1415995")) 10 initial_world))
              (Examples.page "manifest")
              eq_refl eq_refl eq_refl eq_refl eq_refl)
    as (records & w' & Hget & _ & Hd & Hn & _).
  exists records. rewrite Hget. split; [reflexivity|].
  split; [exact Hd | exact Hn].
Defined.

(** C1, as written, fails: with the third accession number missing, the
    query for "10-K" raises IndexError at index 2 instead of skipping it. *)
Lemma get_filings_short_array_raises :
  fst (get_filings (Examples.serving Examples.short_accessions)
         "1415995" "10-K" initial_world) = Raise IndexError.
Proof. vm_compute. reflexivity. Qed.

(** C1, amended. On a manifest with three arrays of any lengths,
    [get_filings] returns records exactly when every index whose form is
    the requested type lies inside both the accessionNumber and the
    filingDate array, and then there is a record for each such index, none
    skipped. If some such index lies outside one of the two arrays, the
    call raises IndexError and returns nothing. *)
Theorem get_filings_unequal_lengths
    (E : env) (cik filing_type : string) (forms accs dates : list string)
    (w w1 : world) (response : response)
    (Hfetch : sec_get E (manifest_url (zfill 10 cik)) 10 w = (Ok response, w1))
    (Hok : ((400 <=? status_code response)
            && (status_code response <? 600))%Z = false)
    (Hjson : json_loads E (text response) = Some (manifest forms accs dates)) :
  ((forall j, nth_error forms j = Some filing_type ->
              j < List.length accs /\ j < List.length dates) ->
   exists records w',
     get_filings E cik filing_type w = (Ok records, w')
     /\ map fst records
        = map (fun j => JStr (nth j dates ""))
              (matching_indices filing_type 0 forms))
  /\ ((exists j, nth_error forms j = Some filing_type
                 /\ (List.length accs <= j \/ List.length dates <= j)) ->
      exists w', get_filings E cik filing_type w = (Raise IndexError, w')).
Proof.
  rewrite (get_filings_manifest E cik filing_type forms accs dates w w1
             response Hfetch Hok Hjson).
  split.
  - intros Hrange.
    destruct (filings_loop_in_range E (zfill 10 cik) filing_type accs dates
                forms 0 [] w1) as (records & w' & _ & Hloop & Hd).
    { intros j Hj. apply Hrange. now apply matching_indices_from_zero. }
    now exists records, w'.
  - intros (j & Hj & Hout).
    apply filings_loop_out_of_range.
    exists j. split; [|exact Hout]. now apply matching_indices_from_zero.
Qed.

Lemma get_filings_unequal_lengths_witness :
  (exists records,
      fst (get_filings (Examples.serving Examples.short_accessions)
             "1415995" "8-K" initial_world) = Ok records
      /\ map fst records = [JStr "2023-02-01"])
  /\ fst (get_filings (Examples.serving Examples.short_accessions)
            "1415995" "10-K" initial_world) = Raise IndexError.
Proof.
  split.
  - destruct (get_filings_unequal_lengths
                (Examples.serving Examples.short_accessions)
                "1415995" "8-K" ["10-K"; "8-K"; "10-K"]
                ["0001-23-000111"; "0002-23-000222"]
                ["2023-01-01"; "2023-02-01"; "2023-03-01"]
                initial_world
                (snd (sec_get (Examples.serving Examples.short_accessions)
                        (manifest_url (zfill 10 "1415995")) 10 initial_world))
                (Examples.page "manifest") eq_refl eq_refl eq_refl)
      as [Hin _].
    destruct Hin as (records & w' & Hget & Hd).
    + intros j Hj.
      assert (j = 1) as ->.
      { destruct j as [|[|[|j]]]; cbn in Hj; try discriminate Hj;
          [reflexivity | destruct j; discriminate Hj]. }
      cbn. lia.
    + exists records. rewrite Hget. split; [reflexivity | exact Hd].
  - destruct (get_filings_unequal_lengths
                (Examples.serving Examples.short_accessions)
                "1415995" "10-K" ["10-K"; "8-K"; "10-K"]
                ["0001-23-000111"; "0002-23-000222"]
                ["2023-01-01"; "2023-02-01"; "2023-03-01"]
                initial_world
                (snd (sec_get (Examples.serving Examples.short_accessions)
                        (manifest_url (zfill 10 "1415995")) 10 initial_world))
                (Examples.page "manifest") eq_refl eq_refl eq_refl)
      as [_ Hout].
    destruct Hout as (w' & Hget).
    + exists 2. split; [reflexivity | left; cbn; lia].
    + rewrite Hget. reflexivity.
Defined.

End QueryClaims.

(** ** The rate governor under concurrency *)
Section GovernorFacts.
Import Governor.

Lemma Qltb_lt (x y : Q) : Net.Qltb x y = true <-> (x < y)%Q.
Proof.
  unfold Net.Qltb. rewrite negb_true_iff.
  split.
  - intros H. apply Qnot_le_lt. intros Hle.
    apply Qle_bool_iff in Hle. congruence.
  - intros H. destruct (Qle_bool y x) eqn:Hb; [|reflexivity].
    apply Qle_bool_iff in Hb. exfalso. exact (Qlt_not_le _ _ H Hb).
Qed.

Lemma Qltb_ge (x y : Q) : Net.Qltb x y = false <-> (y <= x)%Q.
Proof.
  unfold Net.Qltb. rewrite negb_false_iff. apply Qle_bool_iff.
Qed.

Lemma update_lookup (t t' : nat) (p q : pc) (l : list pc) :
  nth_error (update t p l) t' = Some q ->
  (t' = t /\ q = p) \/ (t' <> t /\ nth_error l t' = Some q).
Proof.
  revert t t'. induction l as [|x l IH]; intros t t' H.
  - destruct t, t'; discriminate H.
  - destruct t as [|t], t' as [|t']; cbn in H.
    + left. split; congruence.
    + right. split; [lia | exact H].
    + right. split; [lia | exact H].
    + destruct (IH t t' H) as [[-> ->]|[Hne Hq]]; [left | right]; auto.
Qed.

Lemma pc_ok_later (c d last : Q) (p : pc) :
  (0 <= d)%Q -> pc_ok c last p -> pc_ok (c + d) last p.
Proof.
  intros Hd. destruct p; cbn; intros H; try exact I; lra.
Qed.

Lemma invariant_start (n : nat) (t0 : Q) : invariant (start n t0).
Proof.
  constructor; cbn.
  - intros t p H. apply nth_error_In, repeat_spec in H. now subst p.
  - intros t p H. apply nth_error_In, repeat_spec in H. now subst p.
  - exact I.
  - constructor.
Qed.

(** A step of thread [t] that changes neither the lock, nor the recorded
    time, nor the clock keeps the invariant when the thread stays inside
    the critical section (or outside it) and its new knowledge holds. *)
Lemma invariant_move (s : state) (t : nat) (p p' : pc) :
  invariant s ->
  nth_error (threads s) t = Some p ->
  in_critical p' = in_critical p ->
  pc_ok (clock s) (last_request_time s) p' ->
  invariant (move t p' s).
Proof.
  intros [Hlock Hpc Hsp Hrec] Ht Hcrit Hok.
  constructor; cbn; auto.
  - intros t' q H Hq.
    destruct (update_lookup _ _ _ _ _ H) as [[-> ->]|[_ H']].
    + apply (Hlock t p Ht). congruence.
    + exact (Hlock t' q H' Hq).
  - intros t' q H.
    destruct (update_lookup _ _ _ _ _ H) as [[-> ->]|[_ H']]; eauto.
Qed.

Lemma invariant_thread_step (s s' : state) (t : nat) (p : pc) :
  invariant s ->
  nth_error (threads s) t = Some p ->
  thread_step t p s = Some s' ->
  invariant s'.
Proof.
  intros Hinv Ht Hstep.
  pose proof (inv_pc s Hinv t p Ht) as Hp.
  destruct p; cbn in Hstep, Hp.
  - (* line 33: the lock is free, so nobody is inside *)
    destruct (lock s) eqn:Hfree; [discriminate|].
    injection Hstep as <-.
    destruct Hinv as [Hlock Hpc Hsp Hrec].
    constructor; cbn; auto.
    + intros t' q H Hq.
      destruct (update_lookup _ _ _ _ _ H) as [[-> ->]|[_ H']]; [reflexivity|].
      specialize (Hlock t' q H' Hq). congruence.
    + intros t' q H.
      destruct (update_lookup _ _ _ _ _ H) as [[-> ->]|[_ H']]; cbn; eauto.
  - (* line 34 *)
    injection Hstep as <-.
    apply (invariant_move s t AtNow); auto. cbn. lra.
  - (* lines 35-37 *)
    destruct (Net.Qltb (now - last_request_time s) min_interval) eqn:Hlt;
      injection Hstep as <-.
    + apply (invariant_move s t (AtTest now)); auto. cbn. lra.
    + apply Qltb_ge in Hlt.
      apply (invariant_move s t (AtTest now)); auto. cbn. lra.
  - (* line 38, the call *)
    injection Hstep as <-.
    apply (invariant_move s t (AtSleep d)); auto.
  - (* line 38, the return *)
    destruct (Qle_bool wake (clock s)) eqn:Hwake; [|discriminate].
    injection Hstep as <-. apply Qle_bool_iff in Hwake.
    apply (invariant_move s t (Asleep wake)); auto. cbn. lra.
  - (* line 39: only the holder of the lock gets here *)
    injection Hstep as <-.
    destruct Hinv as [Hlock Hpc Hsp Hrec].
    pose proof (Hlock t AtStamp Ht eq_refl) as Hheld.
    assert (Hmin : (0 <= min_interval)%Q) by (unfold min_interval, Fetcher.min_interval; lra).
    constructor; cbn.
    + intros t' q H Hq.
      destruct (update_lookup _ _ _ _ _ H) as [[-> ->]|[_ H']]; eauto.
    + intros t' q H.
      destruct (update_lookup _ _ _ _ _ H) as [[-> ->]|[Hne H']]; [exact I|].
      destruct (in_critical q) eqn:Hq.
      * specialize (Hlock t' q H' Hq). congruence.
      * destruct q; try discriminate Hq; exact I.
    + split; [|exact Hsp].
      eapply Forall_impl; [|exact Hrec]. cbn. intros b Hb. lra.
    + constructor; [lra|].
      eapply Forall_impl; [|exact Hrec]. cbn. intros b Hb. lra.
  - (* end of the with block *)
    injection Hstep as <-.
    destruct Hinv as [Hlock Hpc Hsp Hrec].
    pose proof (Hlock t AtRelease Ht eq_refl) as Hheld.
    constructor; cbn; auto.
    + intros t' q H Hq.
      destruct (update_lookup _ _ _ _ _ H) as [[-> ->]|[Hne H']]; [discriminate|].
      specialize (Hlock t' q H' Hq). congruence.
    + intros t' q H.
      destruct (update_lookup _ _ _ _ _ H) as [[-> ->]|[_ H']]; cbn; eauto.
  - (* line 40 *)
    injection Hstep as <-.
    apply (invariant_move s t AtRequest); auto.
Qed.

Lemma invariant_step (a : action) (s s' : state) :
  invariant s -> step a s = Some s' -> invariant s'.
Proof.
  intros Hinv Hstep. destruct a as [d|t]; cbn in Hstep.
  - destruct (Qle_bool 0 d) eqn:Hd; [|discriminate].
    injection Hstep as <-. apply Qle_bool_iff in Hd.
    destruct Hinv as [Hlock Hpc Hsp Hrec].
    constructor; cbn; auto.
    intros t p H. apply pc_ok_later; eauto.
  - destruct (nth_error (threads s) t) as [p|] eqn:Ht; [|discriminate].
    exact (invariant_thread_step s s' t p Hinv Ht Hstep).
Qed.

Lemma invariant_run (schedule : list action) :
  forall s s', invariant s -> run schedule s = Some s' -> invariant s'.
Proof.
  induction schedule as [|a rest IH]; intros s s' Hinv Hrun; cbn in Hrun.
  - now injection Hrun as <-.
  - destruct (step a s) as [s1|] eqn:Hstep; [|discriminate].
    exact (IH s1 s' (invariant_step a s s1 Hinv Hstep) Hrun).
Qed.

End GovernorFacts.

Section GovernorClaims.
Import Governor.

(** C10, as written, fails: the call of [requests.get] (line 40) is made
    after the lock is released, and nothing times it. Thread 0 records
    time 1000 and leaves the critical section; thread 1 records time
    1000.25 and leaves it; then both issue their requests at 1000.25, no
    time apart, though the recorded times are 0.25 s apart. *)
Lemma governor_requests_can_coincide :
  exists s,
    run Examples.two_racing (start 2 (1000 # 1)) = Some s
    /\ stamps s = [(4001 # 4)%Q; (1000 # 1)%Q]
    /\ Progress.issue_times Examples.two_racing (start 2 (1000 # 1))
       = [(4001 # 4)%Q; (4001 # 4)%Q]
    /\ ~ ((4001 # 4) + min_interval <= (4001 # 4))%Q.
Proof.
  eexists. split; [vm_compute; reflexivity|].
  split; [reflexivity|]. split; [vm_compute; reflexivity|].
  unfold min_interval, Fetcher.min_interval. intros H. lra.
Qed.

(** C10, amended. For any number of threads and any interleaving of their
    steps with the passing of time: at most one thread is inside the
    critical section of [sec_get] (lines 33-39); a thread that is about to
    record the time of its request (line 39) finds the clock at least
    0.2 s past the recorded time of the last request; and the recorded
    request times are pairwise at least 0.2 s apart. *)
Theorem governor_spacing (n : nat) (t0 : Q) (schedule : list action) (s : state)
    (Hrun : run schedule (start n t0) = Some s) :
  (forall t1 t2 p1 p2,
      nth_error (threads s) t1 = Some p1 ->
      nth_error (threads s) t2 = Some p2 ->
      in_critical p1 = true -> in_critical p2 = true -> t1 = t2)
  /\ (forall t,
         nth_error (threads s) t = Some AtStamp ->
         (last_request_time s + min_interval <= clock s)%Q)
  /\ spaced (stamps s)
  /\ (min_interval == 2 / 10)%Q.
Proof.
  pose proof (invariant_run schedule _ _ (invariant_start n t0) Hrun)
    as [Hlock Hpc Hsp Hrec].
  split; [|split; [|split]].
  - intros t1 t2 p1 p2 H1 H2 C1 C2.
    pose proof (Hlock t1 p1 H1 C1) as L1.
    pose proof (Hlock t2 p2 H2 C2) as L2. congruence.
  - intros t Ht. exact (Hpc t AtStamp Ht).
  - exact Hsp.
  - reflexivity.
Qed.

Lemma governor_spacing_witness :
  exists s,
    run Examples.two_callers (start 2 (1000 # 1)) = Some s
    /\ stamps s = [(4001 # 4)%Q; (1000 # 1)%Q]
    /\ spaced (stamps s).
Proof.
  eexists. split; [vm_compute; reflexivity|].
  split; [reflexivity|].
  apply (governor_spacing 2 (1000 # 1) Examples.two_callers).
  vm_compute. reflexivity.
Defined.

End GovernorClaims.

(** ** Further properties of the fetcher *)
Section FetcherEffects.
Import Net Fetcher Observe.
Variable E : env.

(** The governor's section, exactly. *)
Lemma rate_limit_exact (w : world) :
  rate_limit E w
    = (Ok tt, {| ticks := S (S (ticks w));
                 last_request_time := clock E (S (ticks w));
                 requests := requests w;
                 trace := (trace w ++ governor_sleep E w)%list |}).
Proof.
  unfold rate_limit, governor_sleep, min_interval, bind, time_time, get_last_request_time,
    set_last_request_time, emit, ret. cbn.
  destruct (Qltb _ _); cbn; [reflexivity|].
  now rewrite app_nil_r.
Qed.

Lemma Qltb_true (x y : Q) : Qltb x y = true -> (x < y)%Q.
Proof.
  unfold Qltb. rewrite negb_true_iff. intros H.
  apply Qnot_le_lt. intros Hle. apply Qle_bool_iff in Hle. congruence.
Qed.

Lemma governor_sleep_positive (w : world) :
  Forall positive_sleep (governor_sleep E w).
Proof.
  unfold governor_sleep.
  destruct (Qltb _ _) eqn:Hlt; constructor; [|constructor].
  cbn. apply Qltb_true in Hlt. lra.
Qed.

Lemma governor_sleep_short (w : world) :
  (last_request_time w <= clock E (ticks w))%Q ->
  Forall short_sleep (governor_sleep E w).
Proof.
  intros Hle. unfold governor_sleep.
  destruct (Qltb _ _); constructor; [|constructor]. cbn. lra.
Qed.

Lemma governor_sleep_gets (w : world) : gets (governor_sleep E w) = [].
Proof. unfold governor_sleep. now destruct (Qltb _ _). Qed.

(** One turn of the loop with every field of the world spelled out. *)
Lemma sec_get_loop_cons (url : string) (timeout attempt : nat)
      (rest : list nat) (prev : option response) (w : world) :
  sec_get_loop E url timeout (attempt :: rest) prev w =
    match upstream E (requests w) url with
    | Fails e =>
        (Raise (RequestException e),
         {| ticks := S (S (ticks w));
            last_request_time := clock E (S (ticks w));
            requests := S (requests w);
            trace := (trace w ++ governor_sleep E w ++ [Get url timeout])%list |})
    | Returns r =>
        if (status_code r =? 429)%Z
        then sec_get_loop E url timeout rest (Some r)
               {| ticks := S (S (ticks w));
                  last_request_time := clock E (S (ticks w));
                  requests := S (requests w);
                  trace := (trace w ++ governor_sleep E w ++
                            [Get url timeout;
                             BackoffSleep ((attempt + 1) * backoff_factor)])%list |}
        else (Ok r,
              {| ticks := S (S (ticks w));
                 last_request_time := clock E (S (ticks w));
                 requests := S (requests w);
                 trace := (trace w ++ governor_sleep E w ++ [Get url timeout])%list |})
    end.
Proof.
  cbn [sec_get_loop]. unfold bind at 1. rewrite rate_limit_exact.
  unfold bind, requests_get. cbn [requests trace ticks Net.last_request_time].
  rewrite <- app_assoc.
  destruct (upstream E (requests w) url) as [r|e]; [|reflexivity].
  destruct (status_code r =? 429)%Z; [|reflexivity].
  unfold emit. cbn [requests trace ticks Net.last_request_time].
  rewrite <- !app_assoc. reflexivity.
Qed.

Lemma loop_effects_one (url : string) (timeout budget : nat) (w : world) :
  loop_effects E url (S budget) w
    {| ticks := S (S (ticks w));
       last_request_time := clock E (S (ticks w));
       requests := S (requests w);
       trace := (trace w ++ governor_sleep E w ++ [Get url timeout])%list |}.
Proof.
  exists (governor_sleep E w ++ [Get url timeout])%list.
  cbn [trace ticks requests Net.last_request_time].
  rewrite gets_app, governor_sleep_gets. cbn [gets app List.length repeat].
  split; [reflexivity|].
  split. { apply Forall_app. split; [apply governor_sleep_positive|].
           constructor; [exact I | constructor]. }
  split. { intros _ Hle. apply Forall_app.
           split; [now apply governor_sleep_short|].
           constructor; [exact I | constructor]. }
  split; [reflexivity|].
  split; [lia|]. split; [lia|]. split; [lia|]. split; [lia|].
  split; [discriminate|].
  intros _. f_equal; lia.
Qed.

Lemma sec_get_loop_effects (url : string) (timeout : nat) :
  forall (attempts : list nat) (prev : option response) (w : world),
    loop_effects E url (List.length attempts) w
      (snd (sec_get_loop E url timeout attempts prev w)).
Proof.
  induction attempts as [|attempt rest IH]; intros prev w.
  - exists []. cbn [sec_get_loop].
    assert (Hw : snd (match prev with
                      | Some r => ret r
                      | None => raise UnboundLocalError
                      end w) = w) by (destruct prev; reflexivity).
    rewrite Hw, app_nil_r. cbn.
    split; [reflexivity|]. split; [constructor|]. split; [constructor|].
    split; [reflexivity|]. split; [lia|]. split; [lia|].
    split; [lia|]. split; [lia|]. split; [reflexivity|]. congruence.
  - rewrite sec_get_loop_cons. cbn [List.length].
    destruct (upstream E (requests w) url) as [r|e];
      [|apply loop_effects_one].
    destruct (status_code r =? 429)%Z; [|apply loop_effects_one].
    match goal with |- context [sec_get_loop E url timeout rest (Some r) ?x] =>
      set (w3 := x) end.
    destruct (IH (Some r) w3)
      as (new & Htr & Hp & Hs & Hg & Hlen & Hne & Hticks & Hreq & Hnone & Hlast).
    set (w' := snd (sec_get_loop E url timeout rest (Some r) w3)) in *.
    exists (governor_sleep E w
              ++ [Get url timeout; BackoffSleep ((attempt + 1) * backoff_factor)]
              ++ new)%list.
    rewrite !gets_app, governor_sleep_gets. cbn [gets app List.length repeat].
    split. { rewrite Htr. subst w3. cbn [trace]. now rewrite <- !app_assoc. }
    split. { apply Forall_app. split; [apply governor_sleep_positive|].
             repeat (constructor; [exact I|]). exact Hp. }
    split. { intros Hmono Hle. apply Forall_app.
             split; [now apply governor_sleep_short|].
             repeat (constructor; [exact I|]). apply Hs; [exact Hmono|].
             subst w3. cbn [ticks Net.last_request_time]. apply Hmono. lia. }
    split. { now rewrite <- Hg. }
    split; [lia|]. split; [lia|].
    split. { rewrite Hticks. subst w3. cbn [ticks]. lia. }
    split. { rewrite Hreq. subst w3. cbn [requests]. lia. }
    split; [discriminate|].
    intros _. destruct (gets new) eqn:Hgn.
    + rewrite (Hnone eq_refl). subst w3. cbn [ticks Net.last_request_time].
      f_equal; lia.
    + apply Hlast. discriminate.
Qed.

End FetcherEffects.

Section FetcherExtras.
Import Net Fetcher Observe.

(** X1. A response whose status is not 429 is returned at once, whatever
    the status (a 500 is not retried): if the first [k] attempts (k < 3)
    were answered 429 and the next is answered with another status, the
    call returns that response after [k + 1] requests, having waited 10 s
    after the first attempt and 20 s after the second, and nothing after
    the response it returns. *)
Theorem sec_get_returns_first_other_status
    (E : env) (url : string) (timeout : nat) (w : world)
    (k : nat) (r : response)
    (Hk : k < 3)
    (Hthrottled : forall j, j < k ->
        exists r', upstream E (requests w + j) url = Returns r'
                   /\ status_code r' = 429%Z)
    (Hreturns : upstream E (requests w + k) url = Returns r)
    (Hstatus : status_code r <> 429%Z) :
  fst (sec_get E url timeout w) = Ok r
  /\ requests (snd (sec_get E url timeout w)) = requests w + S k
  /\ exists before,
       trace (snd (sec_get E url timeout w))
         = (trace w ++ before ++ [Get url timeout])%list
       /\ backoffs before = map (fun j => (j + 1) * 10) (seq 0 k).
Proof.
  destruct (sec_get_run E url timeout w)
    as (new & Htr & Hreq & Hb & before & ev & Hnew & Hev).
  set (run := sec_get E url timeout w) in *. clearbody run.
  unfold sec_get_behaviour in Hb.
  apply Z.eqb_neq in Hstatus.
  assert (Hcase : fst run = Ok r
                  /\ exists p, plan new = (p ++ [Get url timeout])%list
                               /\ List.length (gets p) = k
                               /\ backoffs p = map (fun j => (j + 1) * 10) (seq 0 k)).
  { destruct k as [|[|[|k]]]; [| | |lia].
    - rewrite Nat.add_0_r in Hreturns. rewrite Hreturns, Hstatus in Hb.
      destruct Hb as [-> ->]. split; [reflexivity|]. now exists [].
    - destruct (Hthrottled 0) as (r1 & Hr1 & Hs1); [lia|].
      rewrite Nat.add_0_r in Hr1. rewrite Nat.add_1_r in Hreturns.
      rewrite Hr1, Hs1, Hreturns, Hstatus in Hb. cbn in Hb.
      destruct Hb as [-> ->]. split; [reflexivity|].
      now exists [Get url timeout; BackoffSleep 10].
    - destruct (Hthrottled 0) as (r1 & Hr1 & Hs1); [lia|].
      destruct (Hthrottled 1) as (r2 & Hr2 & Hs2); [lia|].
      rewrite Nat.add_0_r in Hr1. rewrite Nat.add_1_r in Hr2.
      replace (requests w + 2) with (S (S (requests w))) in Hreturns by lia.
      rewrite Hr1, Hs1, Hr2, Hs2, Hreturns, Hstatus in Hb. cbn in Hb.
      destruct Hb as [-> ->]. split; [reflexivity|].
      now exists [Get url timeout; BackoffSleep 10; Get url timeout; BackoffSleep 20]. }
  destruct Hcase as (Hres & p & Hp & Hlen & Hback).
  split; [exact Hres|].
  rewrite Hnew, plan_app in Hp. cbn in Hp. rewrite Hev in Hp. cbn in Hp.
  apply app_inj_tail in Hp as [Hbefore ->].
  split.
  - rewrite Hreq, Hnew, gets_app, length_app, <- gets_plan, Hbefore, Hlen.
    cbn. lia.
  - exists before. subst new. split; [exact Htr|].
    now rewrite <- backoffs_plan, Hbefore.
Qed.

Lemma sec_get_returns_first_other_status_witness :
  fst (sec_get Examples.listing "https://www.sec.gov/x" 10 initial_world)
    = Ok (Examples.page "index.html primary-doc.htm exhibit99.htm").
Proof.
  destruct (sec_get_returns_first_other_status Examples.listing
              "https://www.sec.gov/x" 10 initial_world 0
              (Examples.page "index.html primary-doc.htm exhibit99.htm"))
    as (Hres & _).
  - lia.
  - intros j Hj. lia.
  - reflexivity.
  - cbn. lia.
  - exact Hres.
Defined.

(** X2. Whatever the upstream does, a call makes one, two or three
    requests, all to the URL it was given; every request is preceded by
    one pass through the governor, which reads the clock twice; and on
    return [_last_request_time] holds the last clock reading taken, the
    one made just before the last request. *)
Theorem sec_get_bookkeeping (E : env) (url : string) (timeout : nat) (w : world) :
  let w' := snd (sec_get E url timeout w) in
  exists n,
    1 <= n <= 3
    /\ gets (skipn (List.length (trace w)) (trace w')) = repeat url n
    /\ requests w' = requests w + n
    /\ ticks w' = ticks w + 2 * n
    /\ last_request_time w' = clock E (ticks w' - 1).
Proof.
  intros w'.
  destruct (sec_get_loop_effects E url timeout (seq 0 max_retries) None w)
    as (new & Htr & _ & _ & Hg & Hlen & Hne & Hticks & Hreq & _ & Hlast).
  change (snd (sec_get_loop E url timeout (seq 0 max_retries) None w))
    with w' in *.
  cbn in Hlen, Hne. specialize (Hne ltac:(lia)).
  exists (List.length (gets new)).
  split; [lia|]. split; [|split; [exact Hreq|split; [exact Hticks|]]].
  - rewrite Htr, skipn_app, skipn_all, Nat.sub_diag. cbn. exact Hg.
  - apply Hlast. destruct (gets new); [cbn in Hne; lia | discriminate].
Qed.

(** X3. The governor never calls [time.sleep] with a zero or negative
    length. If moreover the clock readings never go back and the recorded
    time is not ahead of the clock on entry, no governor sleep is longer
    than 0.2 s. *)
Theorem sec_get_governor_sleeps (E : env) (url : string) (timeout : nat) (w : world) :
  exists new,
    trace (snd (sec_get E url timeout w)) = (trace w ++ new)%list
    /\ (forall d, In (RateSleep d) new -> (0 < d)%Q)
    /\ (monotone (clock E) ->
        (last_request_time w <= clock E (ticks w))%Q ->
        forall d, In (RateSleep d) new -> (d <= 2 / 10)%Q).
Proof.
  destruct (sec_get_loop_effects E url timeout (seq 0 max_retries) None w)
    as (new & Htr & Hpos & Hshort & _).
  exists new. split; [exact Htr|]. split.
  - intros d Hd. rewrite Forall_forall in Hpos. exact (Hpos _ Hd).
  - intros Hmono Hle d Hd. specialize (Hshort Hmono Hle).
    rewrite Forall_forall in Hshort. exact (Hshort _ Hd).
Qed.

Lemma seconds_monotone : monotone Examples.seconds.
Proof.
  intros n m Hnm. unfold Examples.seconds.
  rewrite <- Zle_Qle. lia.
Qed.

Lemma sec_get_governor_sleeps_witness :
  In (RateSleep (2 # 10))
     (trace (snd (sec_get Examples.always_429 "https://data.sec.gov/x" 10
                    initial_world)))
  /\ (0 < 2 # 10)%Q /\ (2 # 10 <= 2 / 10)%Q.
Proof.
  destruct (sec_get_governor_sleeps Examples.always_429
              "https://data.sec.gov/x" 10 initial_world)
    as (new & Htr & Hpos & Hshort).
  assert (Hin : In (RateSleep (2 # 10))
                   (trace (snd (sec_get Examples.always_429
                                  "https://data.sec.gov/x" 10 initial_world)))).
  { vm_compute. left. reflexivity. }
  split; [exact Hin|].
  rewrite Htr in Hin. cbn [trace initial_world app] in Hin.
  split; [exact (Hpos _ Hin)|].
  apply Hshort;
    [exact seconds_monotone | apply Qle_bool_iff; reflexivity | exact Hin].
Defined.

End FetcherExtras.

(** ** Further properties of the resolver *)
Section ResolverExtras.
Import Net PyStr Fetcher Resolver.

Lemma endswith_append (s suffix : string) :
  endswith s suffix = true <-> exists pre, s = pre ++ suffix.
Proof.
  split.
  - induction s as [|c s IH]; cbn [endswith]; intros H.
    + rewrite orb_false_r in H. apply String.eqb_eq in H. now exists "".
    + apply orb_prop in H as [H|H].
      * apply String.eqb_eq in H. now exists "".
      * destruct (IH H) as (pre & ->). now exists (String c pre).
  - intros (pre & ->). induction pre as [|c pre IH]; cbn [append].
    + destruct suffix; cbn [endswith]; now rewrite String.eqb_refl.
    + cbn [endswith]. rewrite IH. apply orb_true_r.
Qed.

Lemma append_same_tail_length (s1 s2 t1 t2 : string) :
  String.length t1 = String.length t2 ->
  s1 ++ t1 = s2 ++ t2 -> t1 = t2.
Proof.
  revert s2. induction s1 as [|c s1 IH]; intros [|d s2] Hlen H; cbn in H.
  - exact H.
  - subst t1. cbn in Hlen. rewrite length_append in Hlen. lia.
  - subst t2. cbn in Hlen. rewrite length_append in Hlen. lia.
  - injection H as _ H. exact (IH s2 Hlen H).
Qed.

(** No string ends both in .htm or .html and in .txt. *)
Lemma htm_is_not_txt (s : string) :
  endswith s ".htm" || endswith s ".html" = true -> endswith s ".txt" = false.
Proof.
  intros H. destruct (endswith s ".txt") eqn:Htxt; [|reflexivity].
  apply endswith_append in Htxt as (p & Hp).
  apply orb_prop in H as [H|H]; apply endswith_append in H as (q & Hq).
  - rewrite Hp in Hq.
    pose proof (append_same_tail_length p q ".txt" ".htm" eq_refl Hq).
    discriminate.
  - rewrite Hp in Hq.
    assert (Hq' : p ++ ".txt" = (q ++ ".") ++ "html").
    { rewrite Hq. clear. induction q as [|c q IH]; cbn; [reflexivity|].
      now rewrite IH. }
    pose proof (append_same_tail_length p (q ++ ".") ".txt" "html" eq_refl Hq').
    discriminate.
Qed.

(** X4. The exclusion of hrefs ending in .txt (lines 74-75) never fires:
    an href that passed the test of line 72 cannot end in .txt, so the
    candidates are the trimmed hrefs that end in .htm or .html (in any
    letter case) and hold no '/', in document order. *)
Theorem txt_exclusion_never_fires (links candidate_files : list string) :
  collect_candidates links candidate_files
    = (candidate_files
       ++ filter (fun href =>
                    (endswith (lower href) ".htm" || endswith (lower href) ".html")
                    && negb (contains "/" href))
                 (map strip links))%list.
Proof.
  rewrite collect_candidates_filter. f_equal.
  apply filter_ext. intros href. unfold is_candidate.
  destruct (endswith (lower href) ".htm" || endswith (lower href) ".html")
    eqn:H; [|reflexivity].
  rewrite (htm_is_not_txt _ H). cbn [negb]. apply andb_true_r.
Qed.

Lemma last_in {A} (l : list A) (d : A) : l <> [] -> In (last l d) l.
Proof.
  intros Hne. destruct (exists_last Hne) as (l' & a & ->).
  rewrite last_last. apply in_or_app. right. now left.
Qed.

Lemma choose_url_cases (base_url index_url : string) (candidate_files : list string) :
  choose_url base_url index_url candidate_files = index_url
  \/ exists f, In f candidate_files
               /\ choose_url base_url index_url candidate_files = base_url ++ f.
Proof.
  unfold choose_url.
  destruct (filter _ candidate_files) as [|x l] eqn:Hf.
  - destruct candidate_files as [|y l']; [now left | right].
    exists (last (y :: l') ""). split; [|reflexivity].
    apply last_in. discriminate.
  - right. exists (last (x :: l) ""). split; [|reflexivity].
    assert (Hsub : forall y, In y (x :: l) -> In y candidate_files).
    { intros y Hy. rewrite <- Hf in Hy. apply filter_In in Hy. tauto. }
    apply Hsub, last_in. discriminate.
Qed.

(** The shape of every URL the resolver returns. *)
Lemma get_native_filing_url_in_folder
    (E : env) (cik accession_stripped accession_original : string) (w : world) :
  exists f,
    fst (get_native_filing_url E cik accession_stripped accession_original w)
      = Ok (base_url_of cik accession_stripped ++ f)
    /\ contains "/" f = false
    /\ (endswith (lower f) ".htm" = true \/ endswith (lower f) ".html" = true).
Proof.
  rewrite get_native_filing_url_unfold.
  assert (Hindex : exists f,
             index_url_of cik accession_stripped
               = base_url_of cik accession_stripped ++ f
             /\ contains "/" f = false
             /\ (endswith (lower f) ".htm" = true
                 \/ endswith (lower f) ".html" = true)).
  { exists "index.html". split; [reflexivity|]. split; [reflexivity|].
    right. reflexivity. }
  destruct Hindex as (f0 & Hf0 & Hslash0 & Hext0).
  destruct (sec_get_result E (index_url_of cik accession_stripped) 10 w)
    as [[r Hr]|[e He]].
  2:{ rewrite He. exists f0. now rewrite Hf0. }
  rewrite Hr.
  destruct ((400 <=? status_code r) && (status_code r <? 600))%Z.
  { exists f0. now rewrite Hf0. }
  destruct (choose_url_cases (base_url_of cik accession_stripped)
              (index_url_of cik accession_stripped)
              (collect_candidates (find_all_a_href E (text r)) []))
    as [->|(f & Hin & ->)].
  { exists f0. now rewrite Hf0. }
  exists f. split; [reflexivity|].
  rewrite collect_candidates_filter in Hin. cbn [app] in Hin.
  apply filter_In in Hin as [_ Hc]. unfold is_candidate in Hc.
  rewrite !andb_true_iff, orb_true_iff, !negb_true_iff in Hc. tauto.
Qed.


(** The resolver leaves the world as its one call of [sec_get] left it. *)
Lemma get_native_filing_url_world
      (E : env) (cik accession_stripped accession_original : string) (w : world) :
  snd (get_native_filing_url E cik accession_stripped accession_original w)
    = snd (sec_get E (index_url_of cik accession_stripped) 10 w).
Proof.
  unfold get_native_filing_url, index_url_of, bind, raise_for_status.
  destruct (sec_get E _ 10 w) as [[response|e] w1]; cbn [snd].
  - destruct ((400 <=? status_code response) && (status_code response <? 600))%Z;
      reflexivity.
  - destruct e; reflexivity.
Qed.

(** X6. Resolving one filing costs one, two or three requests, all of them
    to the listing page of that filing, and nothing else is requested. *)
Theorem resolver_requests_listing_only
    (E : env) (cik accession_stripped accession_original : string) (w : world) :
  let w' := snd (get_native_filing_url E cik accession_stripped
                   accession_original w) in
  exists n,
    1 <= n <= 3
    /\ gets (skipn (List.length (trace w)) (trace w'))
       = repeat (index_url_of cik accession_stripped) n
    /\ requests w' = requests w + n.
Proof.
  intros w'. subst w'. rewrite get_native_filing_url_world.
  destruct (sec_get_loop_effects E (index_url_of cik accession_stripped) 10
              (seq 0 max_retries) None w)
    as (new & Htr & _ & _ & Hg & Hlen & Hne & _ & Hreq & _).
  change (sec_get_loop E (index_url_of cik accession_stripped) 10
            (seq 0 max_retries) None w)
    with (sec_get E (index_url_of cik accession_stripped) 10 w) in *.
  cbn in Hlen, Hne. specialize (Hne ltac:(lia)).
  exists (List.length (gets new)).
  split; [lia|]. split; [|exact Hreq].
  rewrite Htr, skipn_app, skipn_all, Nat.sub_diag. cbn. exact Hg.
Qed.

End ResolverExtras.

(** ** Further properties of the filings query *)
Section QueryExtras.
Import Net PyStr Fetcher Resolver Query Observe.

(** [get_filings] by the result of the fetch of the manifest. *)
Lemma get_filings_fetched (E : env) (cik filing_type : string)
      (w w1 : world) (res : result response) :
  sec_get E (manifest_url (zfill 10 cik)) 10 w = (res, w1) ->
  get_filings E cik filing_type w =
    match res with
    | Raise (RequestException _) => (Ok [], w1)
    | Raise e => (Raise e, w1)
    | Ok r =>
        if ((400 <=? status_code r) && (status_code r <? 600))%Z
        then (Ok [], w1)
        else
          match json_loads E (text r) with
          | None => (Ok [], w1)
          | Some data =>
              (all_filings <- lift (py_get data "filings" (JObj [])) ;;
               filings <- lift (py_get all_filings "recent" (JObj [])) ;;
               forms <- lift (py_get filings "form" (JArr [])) ;;
               accession_numbers <-
                 lift (py_get filings "accessionNumber" (JArr [])) ;;
               filing_dates <- lift (py_get filings "filingDate" (JArr [])) ;;
               items <- lift (py_iter forms) ;;
               filings_loop E (zfill 10 cik) filing_type accession_numbers
                 filing_dates 0 items []) w1
          end
    end.
Proof.
  intros Hfetch. unfold get_filings, bind at 1. rewrite Hfetch.
  destruct res as [r|e].
  - unfold bind at 1, raise_for_status.
    destruct ((400 <=? status_code r) && (status_code r <? 600))%Z;
      reflexivity.
  - destruct e; reflexivity.
Qed.

(** X7. [get_filings] answers with the empty list, and asks for nothing
    further, when the fetch of the manifest raises a request exception,
    when the manifest comes with a 4xx or 5xx status, and when its body
    does not decode as JSON. *)
Theorem get_filings_degrades_to_empty
    (E : env) (cik filing_type : string) (w w1 : world) (res : result response)
    (Hfetch : sec_get E (manifest_url (zfill 10 cik)) 10 w = (res, w1)) :
  (forall e, res = Raise (RequestException e) ->
             get_filings E cik filing_type w = (Ok [], w1))
  /\ (forall r, res = Ok r -> (400 <= status_code r < 600)%Z ->
                get_filings E cik filing_type w = (Ok [], w1))
  /\ (forall r, res = Ok r -> json_loads E (text r) = None ->
                get_filings E cik filing_type w = (Ok [], w1)).
Proof.
  rewrite (get_filings_fetched E cik filing_type w w1 res Hfetch).
  split; [|split].
  - intros e ->. reflexivity.
  - intros r -> [Hlo Hhi].
    apply Z.leb_le in Hlo. apply Z.ltb_lt in Hhi. now rewrite Hlo, Hhi.
  - intros r -> Hjson. rewrite Hjson.
    destruct ((400 <=? status_code r) && (status_code r <? 600))%Z;
      reflexivity.
Qed.

Lemma get_filings_degrades_to_empty_witness :
  fst (get_filings Examples.always_429 "1415995" "497" initial_world) = Ok []
  /\ fst (get_filings Examples.then_timeout "1415995" "497" initial_world) = Ok []
  /\ fst (get_filings Examples.listing "1415995" "497" initial_world) = Ok [].
Proof.
  split; [|split].
  - destruct (get_filings_degrades_to_empty Examples.always_429 "1415995" "497"
                initial_world _ _ (surjective_pairing _)) as (_ & Hstatus & _).
    rewrite (Hstatus Examples.throttled); [reflexivity | reflexivity | cbn; lia].
  - destruct (get_filings_degrades_to_empty Examples.then_timeout "1415995" "497"
                initial_world _ _ (surjective_pairing _)) as (Hraise & _ & _).
    rewrite (Hraise (Timeout "read timed out")); reflexivity.
  - destruct (get_filings_degrades_to_empty Examples.listing "1415995" "497"
                initial_world _ _ (surjective_pairing _)) as (_ & _ & Hjson).
    rewrite (Hjson (Examples.page "index.html primary-doc.htm exhibit99.htm"));
      reflexivity.
Defined.

(** [get_filings] once the manifest is fetched and decoded. *)
Lemma get_filings_decoded (E : env) (cik filing_type : string)
      (w w1 : world) (r : response) (data : json) :
  sec_get E (manifest_url (zfill 10 cik)) 10 w = (Ok r, w1) ->
  ((400 <=? status_code r) && (status_code r <? 600))%Z = false ->
  json_loads E (text r) = Some data ->
  get_filings E cik filing_type w =
    (all_filings <- lift (py_get data "filings" (JObj [])) ;;
     filings <- lift (py_get all_filings "recent" (JObj [])) ;;
     forms <- lift (py_get filings "form" (JArr [])) ;;
     accession_numbers <- lift (py_get filings "accessionNumber" (JArr [])) ;;
     filing_dates <- lift (py_get filings "filingDate" (JArr [])) ;;
     items <- lift (py_iter forms) ;;
     filings_loop E (zfill 10 cik) filing_type accession_numbers filing_dates
       0 items []) w1.
Proof.
  intros Hfetch Hok Hjson.
  rewrite (get_filings_fetched E cik filing_type w w1 (Ok r) Hfetch).
  now rewrite Hok, Hjson.
Qed.

(** X8. A manifest without the key "filings", or without "recent" under
    it, or without "form" under that, gives the empty list and no further
    request: each missing key is read as an empty object or list. *)
Theorem get_filings_missing_keys
    (E : env) (cik filing_type : string) (w w1 : world) (r : response)
    (members : list (string * json))
    (Hfetch : sec_get E (manifest_url (zfill 10 cik)) 10 w = (Ok r, w1))
    (Hok : ((400 <=? status_code r) && (status_code r <? 600))%Z = false)
    (Hjson : json_loads E (text r) = Some (JObj members)) :
  (assoc "filings" members = None ->
   get_filings E cik filing_type w = (Ok [], w1))
  /\ (forall m2,
         assoc "filings" members = Some (JObj m2) ->
         assoc "recent" m2 = None ->
         get_filings E cik filing_type w = (Ok [], w1))
  /\ (forall m2 m3,
         assoc "filings" members = Some (JObj m2) ->
         assoc "recent" m2 = Some (JObj m3) ->
         assoc "form" m3 = None ->
         get_filings E cik filing_type w = (Ok [], w1)).
Proof.
  rewrite (get_filings_decoded E cik filing_type w w1 r _ Hfetch Hok Hjson).
  split; [|split].
  - intros H. unfold bind, lift. cbn [py_get]. rewrite H. reflexivity.
  - intros m2 H2 H3. unfold bind, lift. cbn [py_get]. rewrite H2.
    cbn [py_get]. rewrite H3. reflexivity.
  - intros m2 m3 H2 H3 H4. unfold bind, lift. cbn [py_get]. rewrite H2.
    cbn [py_get]. rewrite H3. cbn [py_get]. rewrite H4.
    destruct (assoc "accessionNumber" m3), (assoc "filingDate" m3); reflexivity.
Qed.

Lemma get_filings_missing_keys_witness :
  fst (get_filings (Examples.serving Examples.empty_object) "1415995" "497"
         initial_world) = Ok [].
Proof.
  destruct (get_filings_missing_keys (Examples.serving Examples.empty_object)
              "1415995" "497" initial_world
              (snd (sec_get (Examples.serving Examples.empty_object)
                      (manifest_url (zfill 10 "1415995")) 10 initial_world))
              (Examples.page "manifest") []
              eq_refl eq_refl eq_refl) as (Hnone & _).
  rewrite (Hnone eq_refl). reflexivity.
Defined.

(** X9. A manifest of the wrong shape is not caught: when the decoded
    document, or the value under "filings", is not an object,
    [get_filings] raises AttributeError, after the manifest was fetched
    and before any other request. *)
Theorem get_filings_wrong_shape
    (E : env) (cik filing_type : string) (w w1 : world) (r : response)
    (data : json)
    (Hfetch : sec_get E (manifest_url (zfill 10 cik)) 10 w = (Ok r, w1))
    (Hok : ((400 <=? status_code r) && (status_code r <? 600))%Z = false)
    (Hjson : json_loads E (text r) = Some data) :
  (is_object data = false ->
   get_filings E cik filing_type w = (Raise AttributeError, w1))
  /\ (forall members v,
         data = JObj members ->
         assoc "filings" members = Some v ->
         is_object v = false ->
         get_filings E cik filing_type w = (Raise AttributeError, w1)).
Proof.
  rewrite (get_filings_decoded E cik filing_type w w1 r _ Hfetch Hok Hjson).
  split.
  - intros H. destruct data; try discriminate H; reflexivity.
  - intros members v -> Hv H. unfold bind at 1, lift at 1. cbn [py_get].
    rewrite Hv. unfold bind at 1, lift at 1.
    destruct v; try discriminate H; reflexivity.
Qed.

Lemma get_filings_wrong_shape_witness :
  fst (get_filings (Examples.serving Examples.a_list) "1415995" "497"
         initial_world) = Raise AttributeError.
Proof.
  destruct (get_filings_wrong_shape (Examples.serving Examples.a_list)
              "1415995" "497" initial_world
              (snd (sec_get (Examples.serving Examples.a_list)
                      (manifest_url (zfill 10 "1415995")) 10 initial_world))
              (Examples.page "manifest")
              Examples.a_list eq_refl eq_refl eq_refl) as (Hdata & _).
  rewrite (Hdata eq_refl). reflexivity.
Defined.

End QueryExtras.

Section QueryRecords.
Import Net PyStr Fetcher Resolver Query Observe.
Variable E : env.

Lemma filings_loop_no_match (cik filing_type : string) (accs dates : json) :
  forall (forms : list string) (i : nat) (results : list (json * string)) (w : world),
    matching_indices filing_type i forms = [] ->
    filings_loop E cik filing_type accs dates i (map JStr forms) results w
      = (Ok results, w).
Proof.
  induction forms as [|form rest IH]; intros i results w Hnone.
  - reflexivity.
  - cbn [map matching_indices] in *.
    destruct (String.eqb_spec form filing_type) as [Heq|Hne]; [discriminate|].
    rewrite (filings_loop_skip E cik filing_type form accs dates i _ results w Hne).
    now apply IH.
Qed.

Lemma sec_get_requests (url : string) (timeout : nat) (w : world) :
  requests w + 1 <= requests (snd (sec_get E url timeout w)) <= requests w + 3.
Proof.
  destruct (sec_get_loop_effects E url timeout (seq 0 max_retries) None w)
    as (new & _ & _ & _ & _ & Hlen & Hne & _ & Hreq & _).
  change (sec_get_loop E url timeout (seq 0 max_retries) None w)
    with (sec_get E url timeout w) in *.
  cbn in Hlen, Hne. specialize (Hne ltac:(lia)). lia.
Qed.

Lemma get_native_filing_url_requests
      (cik accession_stripped accession_original : string) (w : world) :
  requests w + 1
    <= requests (snd (get_native_filing_url E cik accession_stripped
                        accession_original w))
    <= requests w + 3.
Proof.
  rewrite get_native_filing_url_world. apply sec_get_requests.
Qed.

(** The records of the specification's loop, one by one, and the requests
    they cost. *)
Lemma query_as_specified_records (cik filing_type : string)
      (accs dates : list string) :
  forall (forms : list string) (i : nat) (w w' : world)
         (records : list (json * string)),
    query_as_specified E cik filing_type accs dates i forms w = (Ok records, w') ->
    Forall2 (fun record j =>
               fst record = JStr (nth j dates "")
               /\ exists f,
                    snd record
                      = base_url_of cik (replace "-" "" (nth j accs "")) ++ f
                    /\ contains "/" f = false)
            records (matching_indices filing_type i forms)
    /\ requests w + List.length records <= requests w'
       <= requests w + 3 * List.length records.
Proof.
  induction forms as [|form rest IH]; intros i w w' records Hq;
    cbn [query_as_specified matching_indices] in *.
  - injection Hq as <- <-. split; [constructor | cbn; lia].
  - destruct (form =? filing_type); [|now apply IH].
    unfold bind at 1 in Hq.
    pose proof (get_native_filing_url_in_folder E cik
                  (replace "-" "" (nth i accs "")) (nth i accs "") w)
      as (f & Hf & Hslash & _).
    pose proof (get_native_filing_url_requests cik
                  (replace "-" "" (nth i accs "")) (nth i accs "") w) as Hreq.
    destruct (get_native_filing_url E cik (replace "-" "" (nth i accs ""))
                (nth i accs "") w) as [res w1].
    cbn [fst snd] in Hf, Hreq. subst res.
    unfold bind at 1 in Hq.
    destruct (query_as_specified E cik filing_type accs dates (S i) rest w1)
      as [[records'|e] w2] eqn:Hrest; [|discriminate].
    injection Hq as <- <-.
    destruct (IH (S i) w1 w2 records' Hrest) as [Hall Hcount].
    split.
    + constructor; [|exact Hall]. cbn [fst snd]. split; [reflexivity|].
      now exists f.
    + cbn [List.length]. lia.
Qed.

End QueryRecords.

Section QueryRecordClaims.
Import Net PyStr Fetcher Resolver Query Observe.

(** X10. When no form of the manifest equals the requested type,
    [get_filings] returns the empty list after the fetch of the manifest
    alone: no listing page is requested, and the lengths of the other two
    arrays do not matter. *)
Theorem get_filings_no_match
    (E : env) (cik filing_type : string) (forms accs dates : list string)
    (w w1 : world) (response : response)
    (Hfetch : sec_get E (manifest_url (zfill 10 cik)) 10 w = (Ok response, w1))
    (Hok : ((400 <=? status_code response)
            && (status_code response <? 600))%Z = false)
    (Hjson : json_loads E (text response) = Some (manifest forms accs dates))
    (Hnone : forall j, nth_error forms j <> Some filing_type) :
  get_filings E cik filing_type w = (Ok [], w1).
Proof.
  rewrite (get_filings_manifest E cik filing_type forms accs dates w w1
             response Hfetch Hok Hjson).
  apply filings_loop_no_match.
  destruct (matching_indices filing_type 0 forms) as [|j l] eqn:Hm;
    [reflexivity|].
  exfalso. apply (Hnone j). apply matching_indices_from_zero.
  rewrite Hm. now left.
Qed.

Lemma get_filings_no_match_witness :
  fst (get_filings (Examples.serving Examples.short_accessions)
         "1415995" "497" initial_world) = Ok []
  /\ requests (snd (get_filings (Examples.serving Examples.short_accessions)
                      "1415995" "497" initial_world)) = 1.
Proof.
  rewrite (get_filings_no_match (Examples.serving Examples.short_accessions)
             "1415995" "497" ["10-K"; "8-K"; "10-K"]
             ["0001-23-000111"; "0002-23-000222"]
             ["2023-01-01"; "2023-02-01"; "2023-03-01"]
             initial_world
             (snd (sec_get (Examples.serving Examples.short_accessions)
                     (manifest_url (zfill 10 "1415995")) 10 initial_world))
             (Examples.page "manifest") eq_refl eq_refl eq_refl).
  - split; reflexivity.
  - intros [|[|[|j]]]; cbn; try discriminate. destruct j; discriminate.
Defined.

(** X11. When every matching index lies inside both arrays, the records
    answer one by one to the matching indices in increasing order: the
    record for index [j] carries the filing date at [j] and a URL in the
    folder named by the issuer id padded to ten characters and the
    accession number at [j] without its dashes. *)
Theorem get_filings_records_in_folder
    (E : env) (cik filing_type : string) (forms accs dates : list string)
    (w w1 : world) (response : response)
    (Hfetch : sec_get E (manifest_url (zfill 10 cik)) 10 w = (Ok response, w1))
    (Hok : ((400 <=? status_code response)
            && (status_code response <? 600))%Z = false)
    (Hjson : json_loads E (text response) = Some (manifest forms accs dates))
    (Hrange : forall j, nth_error forms j = Some filing_type ->
                        j < List.length accs /\ j < List.length dates) :
  exists records w',
    get_filings E cik filing_type w = (Ok records, w')
    /\ Forall2 (fun record j =>
                  fst record = JStr (nth j dates "")
                  /\ exists f,
                       snd record
                         = base_url_of (zfill 10 cik)
                             (replace "-" "" (nth j accs "")) ++ f
                       /\ contains "/" f = false)
               records (matching_indices filing_type 0 forms).
Proof.
  destruct (filings_loop_in_range E (zfill 10 cik) filing_type accs dates
              forms 0 [] w1) as (records & w' & Hspec & Hloop & _).
  { intros j Hj. apply Hrange. now apply matching_indices_from_zero. }
  exists records, w'.
  rewrite (get_filings_manifest E cik filing_type forms accs dates w w1
             response Hfetch Hok Hjson).
  split; [exact Hloop|].
  exact (proj1 (query_as_specified_records E (zfill 10 cik) filing_type accs
                  dates forms 0 w1 w' records Hspec)).
Qed.

Lemma get_filings_records_in_folder_witness :
  exists records,
    fst (get_filings (Examples.serving Examples.three_filings)
           "1415995" "10-K" initial_world) = Ok records
    /\ List.length records = 2.
Proof.
  destruct (get_filings_records_in_folder
              (Examples.serving Examples.three_filings)
              "1415995" "10-K" ["10-K"; "8-K"; "10-K"]
              ["0001-23-000111"; "0002-23-000222"; "0003-23-000333"]
              ["2023-01-01"; "2023-02-01"; "2023-03-01"]
              initial_world
              (snd (sec_get (Examples.serving Examples.three_filings)
                      (manifest_url (zfill 10 "1415995")) 10 initial_world))
              (Examples.page "manifest") eq_refl eq_refl eq_refl)
    as (records & w' & Hget & Hall).
  - intros j Hj. assert (j < 3) by (apply (nth_error_Some ["10-K"; "8-K"; "10-K"] j); congruence).
    cbn. lia.
  - exists records. rewrite Hget. split; [reflexivity|].
    apply Forall2_length in Hall. exact Hall.
Defined.

(** X12. With [m] filings of the requested type, all inside both arrays, a
    query makes at least [1 + m] and at most [3 + 3 m] requests: the
    manifest and one listing page per matching filing, each tried up to
    three times. *)
Theorem get_filings_request_count
    (E : env) (cik filing_type : string) (forms accs dates : list string)
    (w w1 : world) (response : response)
    (Hfetch : sec_get E (manifest_url (zfill 10 cik)) 10 w = (Ok response, w1))
    (Hok : ((400 <=? status_code response)
            && (status_code response <? 600))%Z = false)
    (Hjson : json_loads E (text response) = Some (manifest forms accs dates))
    (Hrange : forall j, nth_error forms j = Some filing_type ->
                        j < List.length accs /\ j < List.length dates) :
  let m := List.length (matching_indices filing_type 0 forms) in
  let w' := snd (get_filings E cik filing_type w) in
  requests w + 1 + m <= requests w' <= requests w + 3 + 3 * m.
Proof.
  intros m w'. subst m w'.
  destruct (filings_loop_in_range E (zfill 10 cik) filing_type accs dates
              forms 0 [] w1) as (records & w' & Hspec & Hloop & Hd).
  { intros j Hj. apply Hrange. now apply matching_indices_from_zero. }
  rewrite (get_filings_manifest E cik filing_type forms accs dates w w1
             response Hfetch Hok Hjson), Hloop.
  cbn [snd].
  pose proof (proj2 (query_as_specified_records E (zfill 10 cik) filing_type
                       accs dates forms 0 w1 w' records Hspec)) as Hcount.
  pose proof (sec_get_requests E (manifest_url (zfill 10 cik)) 10 w) as Hfirst.
  rewrite Hfetch in Hfirst. cbn [snd] in Hfirst.
  assert (Hlen : List.length records
                 = List.length (matching_indices filing_type 0 forms)).
  { rewrite <- (length_map fst records), Hd. apply length_map. }
  lia.
Qed.

Lemma get_filings_request_count_witness :
  3 <= requests (snd (get_filings (Examples.serving Examples.three_filings)
                        "1415995" "10-K" initial_world)) <= 9.
Proof.
  pose proof (get_filings_request_count
                (Examples.serving Examples.three_filings)
                "1415995" "10-K" ["10-K"; "8-K"; "10-K"]
                ["0001-23-000111"; "0002-23-000222"; "0003-23-000333"]
                ["2023-01-01"; "2023-02-01"; "2023-03-01"]
                initial_world
                (snd (sec_get (Examples.serving Examples.three_filings)
                        (manifest_url (zfill 10 "1415995")) 10 initial_world))
                (Examples.page "manifest") eq_refl eq_refl eq_refl) as H.
  cbv zeta in H.
  assert (Hrange : forall j,
             nth_error ["10-K"; "8-K"; "10-K"] j = Some "10-K" ->
             j < 3 /\ j < 3).
  { intros j Hj.
    assert (j < 3) by (apply (nth_error_Some ["10-K"; "8-K"; "10-K"] j); congruence).
    lia. }
  exact (H Hrange).
Defined.

End QueryRecordClaims.

(** ** The issuer id and the search driver *)
Section AppExtras.
Import Net PyStr Query App.

(** X13. [zfill] never shortens and never truncates: the result is as
    long as the longer of the width and the string, also for a string
    that starts with a sign. The issuer id that enters a URL has
    therefore always at least ten characters. *)
Theorem zfill_length (width : nat) (s : string) :
  String.length (zfill width s) = Nat.max width (String.length s).
Proof.
  unfold zfill.
  destruct (Nat.leb_spec width (String.length s)) as [Hle|Hlt]; [lia|].
  destruct s as [|c rest].
  - cbn in *. rewrite length_append, length_repeat_char. cbn. lia.
  - cbn [String.length] in *.
    destruct c as [[] [] [] [] [] [] [] []];
      cbn [String.length]; rewrite length_append, length_repeat_char;
      cbn [String.length]; lia.
Qed.

Lemma lstrip_spaces (pad s : string) :
  all_chars is_space pad = true -> lstrip (pad ++ s) = lstrip s.
Proof.
  induction pad as [|c pad IH]; cbn; [reflexivity|].
  intros H. apply andb_prop in H as [Hc Hpad]. rewrite Hc. auto.
Qed.

Lemma lstrip_all_spaces (pad : string) :
  all_chars is_space pad = true -> lstrip pad = "".
Proof.
  induction pad as [|c pad IH]; cbn; [reflexivity|].
  intros H. apply andb_prop in H as [Hc Hpad]. rewrite Hc. auto.
Qed.

Lemma rstrip_spaces (pad : string) :
  all_chars is_space pad = true -> rstrip pad = "".
Proof.
  induction pad as [|c pad IH]; cbn; [reflexivity|].
  intros H. apply andb_prop in H as [Hc Hpad]. now rewrite (IH Hpad), Hc.
Qed.

Lemma rstrip_append_spaces (s pad : string) :
  all_chars is_space pad = true -> rstrip (s ++ pad) = rstrip s.
Proof.
  intros Hpad. induction s as [|c s IH]; cbn [append rstrip].
  - rewrite (rstrip_spaces pad Hpad). reflexivity.
  - now rewrite IH.
Qed.

Lemma strip_append_spaces (s pad : string) :
  all_chars is_space pad = true -> strip (s ++ pad) = strip s.
Proof.
  intros Hpad. unfold strip. induction s as [|c s IH]; cbn [append lstrip].
  - rewrite (lstrip_all_spaces pad Hpad). reflexivity.
  - destruct (is_space c); [exact IH|].
    exact (rstrip_append_spaces (String c s) pad Hpad).
Qed.

(** Python's [strip] ignores blanks on both sides. *)
Lemma strip_padded (pad1 s pad2 : string) :
  all_chars is_space pad1 = true ->
  all_chars is_space pad2 = true ->
  strip (pad1 ++ s ++ pad2) = strip s.
Proof.
  intros H1 H2. unfold strip at 1. rewrite (lstrip_spaces pad1 _ H1).
  exact (strip_append_spaces s pad2 H2).
Qed.

Lemma selected_types_nil (f : form) :
  selected_types f = [] <->
  var_485BXT f = false /\ var_485APOS f = false /\ var_485BPOS f = false
  /\ var_497 f = false /\ var_497k f = false.
Proof.
  unfold selected_types.
  destruct (var_485BXT f), (var_485APOS f), (var_485BPOS f), (var_497 f),
    (var_497k f); cbn; split; intros H; try discriminate H;
    try (repeat split; reflexivity); try reflexivity;
    decompose [and] H; discriminate.
Qed.

Lemma selected_types_NoDup (f : form) : NoDup (selected_types f).
Proof.
  unfold selected_types.
  destruct (var_485BXT f), (var_485APOS f), (var_485BPOS f), (var_497 f),
    (var_497k f); cbn;
    repeat (constructor; [cbn; intuition discriminate|]); constructor.
Qed.

Lemma dict_set_keys_new {V : Type} (key : string) (v : V) (d : list (string * V)) :
  ~ In key (map fst d) -> map fst (dict_set key v d) = (map fst d ++ [key])%list.
Proof.
  induction d as [|[k x] d IH]; cbn; [reflexivity|].
  intros Hnot. destruct (String.eqb_spec k key) as [->|Hne]; [tauto|].
  cbn. f_equal. apply IH. tauto.
Qed.

Lemma dict_set_in {V : Type} (key : string) (v : V) (d : list (string * V))
      (x : string * V) :
  In x (dict_set key v d) -> x = (key, v) \/ In x d.
Proof.
  induction d as [|[k y] d IH]; cbn.
  - intros [<-|[]]. now left.
  - destruct (String.eqb_spec k key) as [->|Hne]; cbn.
    + intros [<-|H]; [now left | right; now right].
    + intros [<-|H]; [right; now left|].
      destruct (IH H) as [->|H']; [now left | right; now right].
Qed.

Lemma dict_set_new {V : Type} (key : string) (v : V) (d : list (string * V)) :
  ~ In key (map fst d) -> dict_set key v d = (d ++ [(key, v)])%list.
Proof.
  induction d as [|[k x] d IH]; cbn; [reflexivity|].
  intros Hnot. destruct (String.eqb_spec k key) as [->|Hne]; [tauto|].
  f_equal. apply IH. tauto.
Qed.

(** The loop of lines 223-225 adds one entry per type, in order, each
    holding what the call made for that type returned. *)
Lemma search_loop_chain (E : env) (cik : string) :
  forall (types : list string) (acc res : list (string * list (json * string)))
         (w w' : world),
    NoDup (map fst acc ++ types) ->
    search_loop E cik types acc w = (Ok res, w') ->
    exists tail,
      res = (acc ++ tail)%list
      /\ map fst tail = types
      /\ calls_in_order E cik tail w w'.
Proof.
  induction types as [|ft rest IH]; intros acc res w w' Hnd Hrun;
    cbn [search_loop] in Hrun.
  - injection Hrun as <- <-. exists []. rewrite app_nil_r.
    repeat split; reflexivity.
  - unfold bind in Hrun.
    destruct (get_filings E cik ft w) as [[filings|e] w1] eqn:Hget;
      [|discriminate].
    assert (Hnew : ~ In ft (map fst acc)).
    { apply NoDup_remove_2 in Hnd. intros Hin. apply Hnd.
      apply in_or_app. now left. }
    rewrite (dict_set_new ft filings acc Hnew) in Hrun.
    destruct (IH (acc ++ [(ft, filings)])%list res w1 w')
      as (tail & Hres & Hkeys & Hcalls).
    + rewrite map_app, <- app_assoc. exact Hnd.
    + exact Hrun.
    + exists ((ft, filings) :: tail). split; [|split].
      * rewrite Hres, <- app_assoc. reflexivity.
      * cbn. now rewrite Hkeys.
      * cbn [calls_in_order]. exists w1. split; [exact Hget | exact Hcalls].
Qed.

(** X14. With no box ticked, [search_filings] hands the message "Please
    select at least one filing type." to the event loop as an error and
    touches neither the network nor the clock; and that is the only case
    in which it posts a message instead of results. *)
Theorem search_filings_nothing_ticked (E : env) (f : form) (w : world) :
  (var_485BXT f = false /\ var_485APOS f = false /\ var_485BPOS f = false
   /\ var_497 f = false /\ var_497k f = false ->
   search_filings E f w
     = (Ok (update_results "Please select at least one filing type." true), w))
  /\ (forall message error w',
         search_filings E f w = (Ok (update_results message error), w') ->
         var_485BXT f = false /\ var_485APOS f = false
         /\ var_485BPOS f = false /\ var_497 f = false /\ var_497k f = false).
Proof.
  unfold search_filings. split.
  - intros H. apply selected_types_nil in H. now rewrite H.
  - intros message error w' H. apply selected_types_nil.
    destruct (selected_types f) as [|ft rest]; [reflexivity|].
    unfold bind in H.
    destruct (search_loop E (strip (cik_entry f)) (ft :: rest) [] w)
      as [[results|e] w1]; discriminate H.
Qed.

Lemma search_filings_nothing_ticked_witness :
  search_filings (Examples.serving Examples.three_filings)
    Examples.nothing_ticked initial_world
  = (Ok (update_results "Please select at least one filing type." true),
     initial_world).
Proof.
  destruct (search_filings_nothing_ticked
              (Examples.serving Examples.three_filings)
              Examples.nothing_ticked initial_world) as [Hnone _].
  apply Hnone. repeat split; reflexivity.
Defined.

(** X15. When [search_filings] posts results, they hold exactly one entry
    for each ticked box, in the order 485BXT, 485APOS, 485BPOS, 497, 497k,
    and the entry of a type is what the call of [get_filings] made for it
    in this run returned: the calls are made in that order with the
    trimmed issuer id, the first in the world of the search, each later
    one in the world its predecessor left, and the search ends in the
    world the last call left. *)
Theorem search_filings_one_entry_per_box
    (E : env) (f : form) (w w' : world)
    (results : list (string * list (json * string)))
    (Hrun : search_filings E f w = (Ok (display_results results), w')) :
  map fst results = selected_types f
  /\ NoDup (map fst results)
  /\ calls_in_order E (strip (cik_entry f)) results w w'.
Proof.
  unfold search_filings in Hrun.
  pose proof (selected_types_NoDup f) as Hnd.
  destruct (selected_types f) as [|ft rest] eqn:Hsel; [discriminate Hrun|].
  unfold bind in Hrun.
  destruct (search_loop E (strip (cik_entry f)) (ft :: rest) [] w)
    as [[res|e] w1] eqn:Hloop; [|discriminate Hrun].
  injection Hrun as -> ->.
  destruct (search_loop_chain E (strip (cik_entry f)) (ft :: rest) []
              results w w' Hnd Hloop) as (tail & Hres & Hkeys & Hcalls).
  cbn [app] in Hres. subst tail.
  split; [exact Hkeys|]. split; [|exact Hcalls].
  rewrite Hkeys. exact Hnd.
Qed.

Lemma search_filings_one_entry_per_box_witness :
  match fst (search_filings (Examples.serving Examples.three_filings)
               Examples.two_ticked initial_world) with
  | Ok (display_results results) => map fst results = ["485BXT"; "497"]
  | _ => False
  end.
Proof.
  destruct (search_filings (Examples.serving Examples.three_filings)
              Examples.two_ticked initial_world)
    as [[[message error|results]|e] w'] eqn:Hrun; cbn [fst].
  - vm_compute in Hrun. discriminate Hrun.
  - exact (proj1 (search_filings_one_entry_per_box _ _ _ _ _ Hrun)).
  - vm_compute in Hrun. discriminate Hrun.
Defined.

(** X16. Blanks typed before or after the issuer id make no difference to
    a search: the entry is trimmed before it is used. *)
Theorem search_filings_ignores_blanks
    (E : env) (f : form) (cik pad1 pad2 : string) (w : world)
    (H1 : all_chars is_space pad1 = true)
    (H2 : all_chars is_space pad2 = true) :
  search_filings E (set_cik (pad1 ++ cik ++ pad2) f) w
    = search_filings E (set_cik cik f) w.
Proof.
  unfold search_filings, set_cik, selected_types. cbn [cik_entry var_485BXT
    var_485APOS var_485BPOS var_497 var_497k].
  now rewrite (strip_padded pad1 cik pad2 H1 H2).
Qed.

Lemma search_filings_ignores_blanks_witness :
  search_filings (Examples.serving Examples.three_filings)
    (set_cik (" " ++ "1415995" ++ "  ") Examples.two_ticked) initial_world
  = search_filings (Examples.serving Examples.three_filings)
      (set_cik "1415995" Examples.two_ticked) initial_world.
Proof.
  apply (search_filings_ignores_blanks
           (Examples.serving Examples.three_filings) Examples.two_ticked
           "1415995" " " "  " initial_world); reflexivity.
Defined.

End AppExtras.

(** ** Progress and bookkeeping of the governor *)
Section GovernorProgress.
Import Governor Progress.

Lemma update_same (t : nat) (p q : pc) (l : list pc) :
  nth_error l t = Some q -> nth_error (update t p l) t = Some p.
Proof.
  revert t. induction l as [|x l IH]; intros [|t] H; cbn in *;
    try discriminate; [reflexivity | auto].
Qed.

Lemma update_other (t t' : nat) (p : pc) (l : list pc) :
  t' <> t -> nth_error (update t p l) t' = nth_error l t'.
Proof.
  revert t t'. induction l as [|x l IH]; intros [|t] [|t'] H; cbn;
    try reflexivity; try lia. apply IH. lia.
Qed.

Lemma length_update (t : nat) (p : pc) (l : list pc) :
  List.length (update t p l) = List.length l.
Proof.
  revert t. induction l as [|x l IH]; intros [|t]; cbn; auto.
Qed.

Lemma others_kept_refl (t : nat) (s : state) : others_kept t s s.
Proof. intros t' _. reflexivity. Qed.

Lemma others_kept_trans (t : nat) (s1 s2 s3 : state) :
  others_kept t s1 s2 -> others_kept t s2 s3 -> others_kept t s1 s3.
Proof. intros H12 H23 t' Hne. now rewrite (H23 t' Hne), (H12 t' Hne). Qed.

(** A step of thread [t] or the passing of time, followed by a run that
    finishes [t], finishes [t]. *)
Lemma can_finish_after (a : action) (t : nat) (s s1 : state) :
  step a s = Some s1 ->
  others_kept t s s1 ->
  can_finish t s1 ->
  can_finish t s.
Proof.
  intros Hstep Hkept (schedule & s' & Hrun & Hpc & Hlock & Hk).
  exists (a :: schedule), s'. cbn [run]. rewrite Hstep.
  repeat split; auto. exact (others_kept_trans t s s1 s' Hkept Hk).
Qed.

Lemma others_kept_move (t : nat) (p : pc) (s : state) :
  others_kept t s (move t p s).
Proof. intros t' Hne. cbn. now apply update_other. Qed.

Lemma step_run (t : nat) (p : pc) (s : state) :
  nth_error (threads s) t = Some p ->
  step (Run t) s = thread_step t p s.
Proof. intros H. cbn [step]. now rewrite H. Qed.

Lemma finish_from_release (t : nat) (s : state) :
  nth_error (threads s) t = Some AtRelease -> can_finish t s.
Proof.
  intros Ht. eexists [Run t], _. cbn [run]. rewrite (step_run t _ s Ht).
  cbn [thread_step]. split; [reflexivity|]. cbn.
  split; [exact (update_same t _ _ _ Ht)|]. split; [reflexivity|].
  intros t' Hne. cbn. now apply update_other.
Qed.

Lemma finish_from_stamp (t : nat) (s : state) :
  nth_error (threads s) t = Some AtStamp -> can_finish t s.
Proof.
  intros Ht.
  eapply (can_finish_after (Run t) t s).
  - rewrite (step_run t _ s Ht). reflexivity.
  - intros t' Hne. cbn. now apply update_other.
  - apply finish_from_release. cbn. exact (update_same t _ _ _ Ht).
Qed.

Lemma finish_from_asleep (t : nat) (wake : Q) (s : state) :
  nth_error (threads s) t = Some (Asleep wake) -> can_finish t s.
Proof.
  intros Ht.
  set (d := if Qle_bool wake (clock s) then 0%Q else (wake - clock s)%Q).
  assert (Hd : Qle_bool 0 d = true).
  { subst d. destruct (Qle_bool wake (clock s)) eqn:Hw; [reflexivity|].
    apply Qle_bool_iff.
    assert (~ (wake <= clock s)%Q)
      by (intros Hle; apply Qle_bool_iff in Hle; congruence).
    lra. }
  assert (Hwake : Qle_bool wake (clock s + d) = true).
  { apply Qle_bool_iff. subst d.
    destruct (Qle_bool wake (clock s)) eqn:Hw; [|lra].
    apply Qle_bool_iff in Hw. lra. }
  eapply (can_finish_after (Tick d) t s).
  - cbn [step]. rewrite Hd. reflexivity.
  - intros t' _. reflexivity.
  - match goal with |- can_finish t ?x => set (s1 := x) end.
    assert (Ht1 : nth_error (threads s1) t = Some (Asleep wake)) by exact Ht.
    eapply (can_finish_after (Run t) t s1).
    + rewrite (step_run t _ s1 Ht1). cbn [thread_step].
      change (clock s1) with (clock s + d)%Q. rewrite Hwake. reflexivity.
    + apply others_kept_move.
    + apply finish_from_stamp. cbn. exact (update_same t _ _ _ Ht1).
Qed.

Lemma finish_from_sleep (t : nat) (d : Q) (s : state) :
  nth_error (threads s) t = Some (AtSleep d) -> can_finish t s.
Proof.
  intros Ht.
  eapply (can_finish_after (Run t) t s).
  - rewrite (step_run t _ s Ht). reflexivity.
  - apply others_kept_move.
  - eapply finish_from_asleep. cbn. exact (update_same t _ _ _ Ht).
Qed.

Lemma finish_from_test (t : nat) (now : Q) (s : state) :
  nth_error (threads s) t = Some (AtTest now) -> can_finish t s.
Proof.
  intros Ht.
  destruct (Net.Qltb (now - last_request_time s) min_interval) eqn:Hlt.
  - eapply (can_finish_after (Run t) t s).
    + rewrite (step_run t _ s Ht). cbn [thread_step]. rewrite Hlt. reflexivity.
    + apply others_kept_move.
    + eapply finish_from_sleep. cbn. exact (update_same t _ _ _ Ht).
  - eapply (can_finish_after (Run t) t s).
    + rewrite (step_run t _ s Ht). cbn [thread_step]. rewrite Hlt. reflexivity.
    + apply others_kept_move.
    + apply finish_from_stamp. cbn. exact (update_same t _ _ _ Ht).
Qed.

Lemma finish_from_now (t : nat) (s : state) :
  nth_error (threads s) t = Some AtNow -> can_finish t s.
Proof.
  intros Ht.
  eapply (can_finish_after (Run t) t s).
  - rewrite (step_run t _ s Ht). reflexivity.
  - apply others_kept_move.
  - eapply finish_from_test. cbn. exact (update_same t _ _ _ Ht).
Qed.

Lemma finish_from_inside (t : nat) (p : pc) (s : state) :
  nth_error (threads s) t = Some p -> in_critical p = true -> can_finish t s.
Proof.
  intros Ht Hp. destruct p; try discriminate Hp.
  - now apply finish_from_now.
  - now apply (finish_from_test t now).
  - now apply (finish_from_sleep t d).
  - now apply (finish_from_asleep t wake).
  - now apply finish_from_stamp.
  - now apply finish_from_release.
Qed.

End GovernorProgress.

Section GovernorBookkeeping.
Import Governor Progress.

Lemma holder_inside_move (s : state) (t : nat) (p p' : pc) :
  holder_inside s ->
  nth_error (threads s) t = Some p ->
  (in_critical p = true -> in_critical p' = true) ->
  holder_inside (move t p' s).
Proof.
  intros Hh Ht Hcrit t0 Hlock. cbn in Hlock.
  destruct (Hh t0 Hlock) as (q & Hq & Hin).
  destruct (Nat.eq_dec t0 t) as [->|Hne].
  - exists p'. cbn. split; [exact (update_same t _ _ _ Ht)|].
    apply Hcrit. congruence.
  - exists q. cbn. split; [|exact Hin]. now rewrite update_other.
Qed.

Lemma holder_inside_thread_step (s s' : state) (t : nat) (p : pc) :
  holder_inside s ->
  nth_error (threads s) t = Some p ->
  thread_step t p s = Some s' ->
  holder_inside s'.
Proof.
  intros Hh Ht Hstep. destruct p; cbn in Hstep.
  - destruct (lock s); [discriminate|]. injection Hstep as <-.
    intros t0 Hlock. cbn in Hlock. injection Hlock as <-.
    exists AtNow. cbn. split; [exact (update_same t _ _ _ Ht) | reflexivity].
  - injection Hstep as <-. now apply (holder_inside_move s t AtNow).
  - destruct (Net.Qltb _ _); injection Hstep as <-;
      now apply (holder_inside_move s t (AtTest now)).
  - injection Hstep as <-. now apply (holder_inside_move s t (AtSleep d)).
  - destruct (Qle_bool _ _); [|discriminate]. injection Hstep as <-.
    now apply (holder_inside_move s t (Asleep wake)).
  - injection Hstep as <-.
    intros t0 Hlock. cbn in Hlock.
    destruct (Hh t0 Hlock) as (q & Hq & Hin).
    destruct (Nat.eq_dec t0 t) as [->|Hne].
    + exists AtRelease. cbn. split; [exact (update_same t _ _ _ Ht) | reflexivity].
    + exists q. cbn. split; [|exact Hin]. now rewrite update_other.
  - injection Hstep as <-. intros t0 Hlock. discriminate Hlock.
  - injection Hstep as <-.
    intros t0 Hlock. cbn in Hlock.
    destruct (Hh t0 Hlock) as (q & Hq & Hin).
    destruct (Nat.eq_dec t0 t) as [->|Hne].
    + rewrite Ht in Hq. injection Hq as <-. discriminate Hin.
    + exists q. cbn. split; [|exact Hin]. now rewrite update_other.
Qed.

Lemma recorded_thread_step (s s' : state) (t : nat) (p : pc) :
  recorded s -> thread_step t p s = Some s' -> recorded s'.
Proof.
  intros [Hpast Hnew] Hstep. destruct p; cbn in Hstep.
  - destruct (lock s); [discriminate|]. injection Hstep as <-. now constructor.
  - injection Hstep as <-. now constructor.
  - destruct (Net.Qltb _ _); injection Hstep as <-; now constructor.
  - injection Hstep as <-. now constructor.
  - destruct (Qle_bool _ _); [|discriminate]. injection Hstep as <-.
    now constructor.
  - injection Hstep as <-. constructor; cbn; [lra | reflexivity].
  - injection Hstep as <-. now constructor.
  - injection Hstep as <-. now constructor.
Qed.

Lemma length_thread_step (s s' : state) (t : nat) (p : pc) :
  thread_step t p s = Some s' ->
  List.length (threads s') = List.length (threads s).
Proof.
  intros Hstep. destruct p; cbn in Hstep;
    repeat match type of Hstep with
           | match ?x with _ => _ end = _ => destruct x; try discriminate
           | (if ?c then _ else _) = _ => destruct c; try discriminate
           end;
    injection Hstep as <-; cbn; apply length_update.
Qed.

(** What every run keeps, besides the invariant of the critical section. *)
Lemma run_keeps (schedule : list action) :
  forall s s',
    run schedule s = Some s' ->
    (holder_inside s -> holder_inside s')
    /\ (recorded s -> recorded s')
    /\ List.length (threads s') = List.length (threads s).
Proof.
  induction schedule as [|a rest IH]; intros s s' Hrun; cbn in Hrun.
  - injection Hrun as <-. auto.
  - destruct (step a s) as [s1|] eqn:Hstep; [|discriminate].
    destruct (IH s1 s' Hrun) as (Hh & Hr & Hl).
    destruct a as [d|t]; cbn in Hstep.
    + destruct (Qle_bool 0 d) eqn:Hd; [|discriminate].
      injection Hstep as <-. apply Qle_bool_iff in Hd.
      split; [|split].
      * intros H. apply Hh. exact H.
      * intros [Hpast Hnew]. apply Hr. constructor; cbn; [lra | exact Hnew].
      * exact Hl.
    + destruct (nth_error (threads s) t) as [p|] eqn:Ht; [|discriminate].
      split; [|split].
      * intros H. apply Hh. exact (holder_inside_thread_step s s1 t p H Ht Hstep).
      * intros H. apply Hr. exact (recorded_thread_step s s1 t p H Hstep).
      * rewrite Hl. exact (length_thread_step s s1 t p Hstep).
Qed.

Lemma holder_inside_start (n : nat) (t0 : Q) : holder_inside (start n t0).
Proof. intros t H. discriminate H. Qed.

(** X17. A thread inside the critical section is never blocked by another
    thread: its own steps and the passing of time bring it to the end of
    the [with] block, where it releases the lock, while every other thread
    stays where it was. *)
Theorem governor_holder_finishes (s : state) (t : nat) (p : pc)
    (Ht : nth_error (threads s) t = Some p)
    (Hinside : in_critical p = true) :
  can_finish t s.
Proof. exact (finish_from_inside t p s Ht Hinside). Qed.

Lemma governor_holder_finishes_witness :
  can_finish 1 {| clock := 1000 # 1; lock := Some 1;
                  last_request_time := 1000 # 1;
                  threads := [AtLock; AtTest (1000 # 1)];
                  stamps := [(1000 # 1)%Q] |}.
Proof.
  apply (governor_holder_finishes _ 1 (AtTest (1000 # 1))); reflexivity.
Defined.

(** X18. The governor cannot deadlock: from every state reached from the
    start, every thread can still be scheduled through the governor to
    the point where it issues its request. *)
Theorem governor_deadlock_free (n : nat) (t0 : Q) (schedule : list action)
    (s : state) (t : nat)
    (Hrun : run schedule (start n t0) = Some s)
    (Ht : t < n) :
  exists more s',
    run more s = Some s' /\ nth_error (threads s') t = Some AtRequest.
Proof.
  destruct (run_keeps schedule _ _ Hrun) as (Hh & _ & Hlen).
  specialize (Hh (holder_inside_start n t0)).
  cbn in Hlen. rewrite repeat_length in Hlen.
  assert (Hdone : forall s0, can_finish t s0 ->
            exists more s', run more s0 = Some s'
                            /\ nth_error (threads s') t = Some AtRequest).
  { intros s0 (more & s' & Hr & Hp & _). now exists more, s'. }
  assert (Henter : forall s0,
            nth_error (threads s0) t = Some AtLock -> lock s0 = None ->
            can_finish t s0).
  { intros s0 Hp Hfree.
    eapply (can_finish_after (Run t) t s0).
    - rewrite (step_run t _ s0 Hp). cbn [thread_step]. rewrite Hfree.
      reflexivity.
    - intros t' Hne. cbn. now apply update_other.
    - apply finish_from_now. cbn. exact (update_same t _ _ _ Hp). }
  destruct (nth_error (threads s) t) as [p|] eqn:Hp.
  2:{ apply nth_error_None in Hp. lia. }
  destruct (in_critical p) eqn:Hin.
  { apply Hdone. exact (finish_from_inside t p s Hp Hin). }
  destruct p; try discriminate Hin.
  - (* waiting for the lock *)
    destruct (lock s) as [holder|] eqn:Hlock.
    + destruct (Hh holder Hlock) as (q & Hq & Hqin).
      assert (Hne : t <> holder).
      { intros ->. rewrite Hp in Hq. injection Hq as <-. discriminate Hqin. }
      destruct (finish_from_inside holder q s Hq Hqin)
        as (sch1 & s1 & Hr1 & _ & Hfree & Hkept).
      destruct (Hdone s1) as (sch2 & s2 & Hr2 & Hp2).
      { apply Henter; [|exact Hfree]. now rewrite (Hkept t Hne). }
      exists (sch1 ++ sch2)%list, s2. split; [|exact Hp2].
      clear -Hr1 Hr2. revert s Hr1.
      induction sch1 as [|a sch1 IH]; intros s Hr1; cbn in *.
      * now injection Hr1 as ->.
      * destruct (step a s); [auto | discriminate].
    + apply Hdone. now apply Henter.
  - (* already at its request *)
    exists [], s. split; [reflexivity | exact Hp].
Qed.

Lemma governor_deadlock_free_witness :
  exists more s',
    run more (start 2 (1000 # 1)) = Some s'
    /\ nth_error (threads s') 1 = Some AtRequest.
Proof.
  apply (governor_deadlock_free 2 (1000 # 1) [] (start 2 (1000 # 1)) 1);
    [reflexivity | lia].
Defined.

(** X19. If the clock starts at a non-negative time, then in every state
    reached from the start the recorded time of the last request is the
    newest timestamp written (0 before the first), and neither it nor any
    older timestamp is ahead of the clock. *)
Theorem governor_recorded_time (n : nat) (t0 : Q) (schedule : list action)
    (s : state)
    (Hstart : (0 <= t0)%Q)
    (Hrun : run schedule (start n t0) = Some s) :
  last_request_time s = hd 0%Q (stamps s)
  /\ (last_request_time s <= clock s)%Q
  /\ Forall (fun b => (b <= clock s)%Q) (stamps s).
Proof.
  destruct (run_keeps schedule _ _ Hrun) as (_ & Hr & _).
  destruct Hr as [Hpast Hnew]; [constructor; cbn; [exact Hstart | reflexivity]|].
  pose proof (invariant_run schedule _ _ (invariant_start n t0) Hrun)
    as [_ _ _ Hrec].
  split; [exact Hnew|]. split; [exact Hpast|].
  eapply Forall_impl; [|exact Hrec]. cbn. intros b Hb. lra.
Qed.

Lemma governor_recorded_time_witness :
  exists s,
    run Examples.two_callers (start 2 (1000 # 1)) = Some s
    /\ last_request_time s = (4001 # 4)%Q
    /\ (last_request_time s <= clock s)%Q.
Proof.
  eexists. split; [vm_compute; reflexivity|].
  split; [reflexivity|].
  apply (governor_recorded_time 2 (1000 # 1) Examples.two_callers).
  - apply Qle_bool_iff. reflexivity.
  - vm_compute. reflexivity.
Defined.

End GovernorBookkeeping.

(** ** The first request of a query *)
Section QueryFirstRequest.
Import Net PyStr Fetcher Resolver Query.
Variable E : env.

Lemma sec_get_trace (url : string) (timeout : nat) (w : world) :
  exists new n,
    trace (snd (sec_get E url timeout w)) = (trace w ++ new)%list
    /\ gets new = repeat url (S n).
Proof.
  destruct (sec_get_loop_effects E url timeout (seq 0 max_retries) None w)
    as (new & Htr & _ & _ & Hg & _ & Hne & _).
  change (sec_get_loop E url timeout (seq 0 max_retries) None w)
    with (sec_get E url timeout w) in *.
  cbn in Hne. specialize (Hne ltac:(lia)).
  destruct (List.length (gets new)) as [|n] eqn:Hn; [lia|].
  now exists new, n.
Qed.

Lemma get_native_filing_url_trace
      (cik accession_stripped accession_original : string) (w : world) :
  exists new,
    trace (snd (get_native_filing_url E cik accession_stripped
                  accession_original w)) = (trace w ++ new)%list.
Proof.
  rewrite get_native_filing_url_world.
  destruct (sec_get_trace (index_url_of cik accession_stripped) 10 w)
    as (new & _ & Htr & _).
  now exists new.
Qed.

(** The loop only adds to the trace, whatever the decoded values are and
    however it ends. *)
Lemma filings_loop_trace (cik filing_type : string) (accs dates : json) :
  forall (forms : list json) (i : nat) (results : list (json * string)) (w : world),
    exists more,
      trace (snd (filings_loop E cik filing_type accs dates i forms results w))
        = (trace w ++ more)%list.
Proof.
  induction forms as [|form rest IH]; intros i results w.
  - exists []. cbn. now rewrite app_nil_r.
  - cbn [filings_loop].
    destruct (py_eq_str form filing_type); [|apply IH].
    unfold bind at 1, lift at 1.
    destruct (py_index accs i) as [accession_number|e].
    2:{ exists []. cbn. now rewrite app_nil_r. }
    unfold bind at 1, lift at 1.
    destruct (py_accession_ids accession_number) as [ids|e].
    2:{ exists []. cbn. now rewrite app_nil_r. }
    unfold bind at 1.
    destruct (get_native_filing_url_trace cik (fst ids) (snd ids) w)
      as (new & Hnew).
    destruct (get_native_filing_url E cik (fst ids) (snd ids) w)
      as [[url|e] w1]; cbn [snd] in Hnew.
    2:{ exists new. exact Hnew. }
    unfold bind at 1, lift at 1.
    destruct (py_index dates i) as [filing_date|e].
    2:{ exists new. exact Hnew. }
    destruct (IH (S i) (results ++ [(filing_date, url)])%list w1) as (more & Hmore).
    exists (new ++ more)%list. rewrite Hmore, Hnew. now rewrite app_assoc.
Qed.

End QueryFirstRequest.

Section QueryFirstRequestClaim.
Import Net PyStr Fetcher Resolver Query.

(** X20. Whatever the issuer id, the upstream and the manifest are, and
    however the query ends, the first request of [get_filings] goes to the
    manifest of the issuer id padded by [zfill(10)]. *)
Theorem get_filings_first_request
    (E : env) (cik filing_type : string) (w : world) :
  exists others,
    gets (skipn (List.length (trace w))
                (trace (snd (get_filings E cik filing_type w))))
      = manifest_url (zfill 10 cik) :: others.
Proof.
  destruct (sec_get_trace E (manifest_url (zfill 10 cik)) 10 w)
    as (new & n & Htr & Hg).
  assert (Hsuffix : exists more,
             trace (snd (get_filings E cik filing_type w))
               = (trace w ++ new ++ more)%list).
  { destruct (sec_get E (manifest_url (zfill 10 cik)) 10 w) as [res w1] eqn:Hfetch.
    cbn [snd] in Htr.
    rewrite (get_filings_fetched E cik filing_type w w1 res Hfetch).
    assert (Hsame : forall r : result (list (json * string)),
               exists more, trace (snd (r, w1)) = (trace w ++ new ++ more)%list).
    { intros r. exists []. cbn [snd]. now rewrite app_nil_r. }
    destruct res as [r|e]; [|destruct e; apply Hsame].
    destruct ((400 <=? status_code r) && (status_code r <? 600))%Z;
      [apply Hsame|].
    destruct (json_loads E (text r)) as [data|]; [|apply Hsame].
    unfold bind at 1, lift at 1.
    destruct (py_get data "filings" (JObj [])) as [all_filings|e];
      [|apply Hsame].
    unfold bind at 1, lift at 1.
    destruct (py_get all_filings "recent" (JObj [])) as [filings|e];
      [|apply Hsame].
    unfold bind at 1, lift at 1.
    destruct (py_get filings "form" (JArr [])) as [forms|e]; [|apply Hsame].
    unfold bind at 1, lift at 1.
    destruct (py_get filings "accessionNumber" (JArr [])) as [accs|e];
      [|apply Hsame].
    unfold bind at 1, lift at 1.
    destruct (py_get filings "filingDate" (JArr [])) as [dates|e];
      [|apply Hsame].
    unfold bind at 1, lift at 1.
    destruct (py_iter forms) as [items|e]; [|apply Hsame].
    destruct (filings_loop_trace E (zfill 10 cik) filing_type accs dates
                items 0 [] w1) as (more & Hmore).
    exists more. rewrite Hmore, Htr. now rewrite app_assoc. }
  destruct Hsuffix as (more & ->).
  rewrite skipn_app, skipn_all, Nat.sub_diag. cbn [skipn app].
  rewrite gets_app, Hg. cbn [repeat app]. eauto.
Qed.

End QueryFirstRequestClaim.
